(** * Mask-guided segmentation and replacement (src/app.py)

    A shallow embedding of [ImageSegmentationApp.process_segmentation] and of
    the library operations it calls, followed by the properties of the
    pipeline.

    The function under study is glue code around Pillow, NumPy, OpenCV and
    the SAM2 network.  The Pillow and NumPy operations it calls are small and
    are written out here as they behave ([Image.split], [Image.resize],
    [Image.composite], [np.squeeze], [astype], [Image.fromarray]), on images
    with 8-bit bands.  The numerically opaque collaborators (the resampling
    filter, mode conversion, contour tracing, contour moments and the
    network) are parameters of the section that holds the pipeline; the
    network carries a state of its own, which the pipeline threads through
    its call.  Writing to standard output ([print]) is left out. *)

From Stdlib Require Import String Ascii ZArith Bool Arith Lia List.
From Stdlib Require Import Floats.SpecFloat DecimalString.
Import ListNotations.

Local Open Scope string_scope.
Local Open Scope Z_scope.

(** ** Python exceptions

    An exception is represented by its description, the text that [str(e)]
    or an f-string [{e}] yields. *)

Inductive result (A : Type) : Type :=
| Ok (a : A)
| Raise (e : string).

Arguments Ok {A} a.
Arguments Raise {A} e.

Definition bind {A B : Type} (r : result A) (k : A -> result B) : result B :=
  match r with
  | Ok a => k a
  | Raise e => Raise e
  end.

Notation "x <- c1 ;; c2" := (bind c1 (fun x => c2))
  (at level 61, c1 at next level, right associativity).

(** ** Small list utilities *)

(** [overlay f dst src] rewrites the prefix of [dst] that [src] covers and
    keeps the rest of [dst]: a write into a destination buffer that is
    clipped to the destination. *)
Fixpoint overlay {A B : Type} (f : A -> B -> A) (dst : list A) (src : list B)
  : list A :=
  match dst, src with
  | d :: ds, s :: ss => f d s :: overlay f ds ss
  | _, _ => dst
  end.

Fixpoint chunks {A : Type} (n : nat) (count : nat) (l : list A) : list (list A) :=
  match count with
  | O => []
  | S c => firstn n l :: chunks n c (skipn n l)
  end.

(** ** Pillow images *)

Module PIL.

(** The 8-bit modes of Pillow. *)
Inductive pil_mode :=
| M_1 | M_L | M_P | M_LA | M_RGB | M_RGBA | M_CMYK | M_YCbCr.

Definition mode_eqb (a b : pil_mode) : bool :=
  match a, b with
  | M_1, M_1 | M_L, M_L | M_P, M_P | M_LA, M_LA | M_RGB, M_RGB
  | M_RGBA, M_RGBA | M_CMYK, M_CMYK | M_YCbCr, M_YCbCr => true
  | _, _ => false
  end.

Definition bands (m : pil_mode) : nat :=
  match m with
  | M_1 | M_L | M_P => 1
  | M_LA => 2
  | M_RGB | M_YCbCr => 3
  | M_RGBA | M_CMYK => 4
  end%nat.

(** Bytes per pixel in Pillow's storage: one for the single-band modes, four
    for every other mode ([LA] is stored as L,L,L,A and [RGB] with a pad
    byte). *)
Definition pixelsize (m : pil_mode) : nat :=
  match m with
  | M_1 | M_L | M_P => 1
  | _ => 4
  end%nat.

(** A pixel holds one value per band. *)
Abbreviation pixel := (list Z).

(** [size] is (width, height), [pixels] the rows from top to bottom. *)
Record Image := {
  mode : pil_mode;
  size : nat * nat;
  pixels : list (list pixel)
}.

Definition width (im : Image) : nat := fst (size im).
Definition height (im : Image) : nat := snd (size im).

Definition size_eqb (a b : nat * nat) : bool :=
  Nat.eqb (fst a) (fst b) && Nat.eqb (snd a) (snd b).

Definition byte_ok (v : Z) : bool := (0 <=? v) && (v <? 256).

Definition pixel_ok (m : pil_mode) (px : pixel) : bool :=
  Nat.eqb (length px) (bands m) && forallb byte_ok px.

Definition rows_ok (m : pil_mode) (sz : nat * nat) (rows : list (list pixel))
  : bool :=
  Nat.eqb (length rows) (snd sz)
  && forallb (fun row => Nat.eqb (length row) (fst sz)
                         && forallb (pixel_ok m) row) rows.

(** The raster agrees with the declared size and mode. *)
Definition well_formed (im : Image) : bool :=
  rows_ok (mode im) (size im) (pixels im).

(** [Image.getpixel((x, y))], band [b]. *)
Definition getband (im : Image) (x y b : nat) : Z :=
  nth b (nth x (nth y (pixels im) []) []) 0.

(** *** [Image.split]

    A single-band image yields a copy of itself; otherwise every band
    becomes an image of mode L. *)
Definition band_image (im : Image) (b : nat) : Image :=
  {| mode := M_L;
     size := size im;
     pixels := map (map (fun px => [nth b px 0])) (pixels im) |}.

Definition split (im : Image) : list Image :=
  if Nat.eqb (bands (mode im)) 1 then [im]
  else map (band_image im) (seq 0 (bands (mode im))).

(** *** Blending arithmetic (ImagingUtils.h)

    [DIV255(a, tmp) = (tmp = a + 128, ((tmp >> 8) + tmp) >> 8)] and
    [BLEND8(mask, in1, in2) = DIV255(in1 * (255 - mask) + in2 * mask)],
    stored into a [UINT8]. *)
Definition uint8 (v : Z) : Z := v mod 256.

Definition DIV255 (a : Z) : Z :=
  let tmp := a + 128 in
  Z.shiftr (Z.shiftr tmp 8 + tmp) 8.

Definition BLEND8 (mask in1 in2 : Z) : Z :=
  uint8 (DIV255 (in1 * (255 - mask) + in2 * mask)).

Section Operations.

(** The resampling filter behind [Image.resize] (bicubic by default,
    nearest for modes 1 and P): the rows of the resized raster. *)
Variable resample : Image -> nat * nat -> result (list (list pixel)).

(** The pixel-format conversion behind [Image.convert]; an unsupported
    conversion raises a [ValueError]. *)
Variable convert_pixels : Image -> pil_mode -> result (list (list pixel)).

Definition convert (im : Image) (m : pil_mode) : result Image :=
  rows <- convert_pixels im m ;;
  Ok {| mode := m; size := size im; pixels := rows |}.

(** *** [Image.resize(size)]

    A request for the image's own size returns a copy; a size below one
    pixel is refused; otherwise the raster is resampled and the mode is
    kept. *)
Definition resize (im : Image) (sz : nat * nat) : result Image :=
  if size_eqb (size im) sz then Ok im
  else if (Nat.ltb (fst sz) 1 || Nat.ltb (snd sz) 1)%bool
    then Raise "height and width must be > 0"
  else
    rows <- resample im sz ;;
    Ok {| mode := mode im; size := sz; pixels := rows |}.

(** *** [Image.paste(im, None, mask)] and [Image.composite] *)

(** The source pixel read through the destination's band layout.  Equal
    modes share the layout; an RGB destination reads the first three
    bytes of a four-byte source pixel (R,G,B of an RGBA pixel, L,L,L of
    an LA pixel). *)
Definition source_pixel (dst src : pil_mode) (px : pixel) : pixel :=
  match dst, src with
  | M_RGB, M_RGBA => firstn 3 px
  | M_RGB, M_LA => let l := nth 0 px 0 in [l; l; l]
  | _, _ => px
  end.

(** The matte value of a mask pixel: the only band of a 1 or L mask, the
    alpha band of an LA or RGBA mask. *)
Definition matte (px : pixel) : Z := last px 0.

(** [paste_mask_1]: the source pixel replaces the destination pixel
    where the mask is non-zero. *)
Definition paste_mask_1 (d : pixel) (sm : pixel * pixel) : pixel :=
  if Z.eqb (matte (snd sm)) 0 then d else fst sm.

(** [paste_mask_L] and [paste_mask_RGBA]: every byte is blended. *)
Definition paste_mask_L (d : pixel) (sm : pixel * pixel) : pixel :=
  overlay (BLEND8 (matte (snd sm))) d (fst sm).

Definition zip_rows (src mask : list (list pixel))
  : list (list (pixel * pixel)) :=
  map (fun rm => combine (fst rm) (snd rm)) (combine src mask).

Definition paste_rows (f : pixel -> pixel * pixel -> pixel)
  (dst src mask : list (list pixel)) : list (list pixel) :=
  overlay (overlay f) dst (zip_rows src mask).

(** The C layer ([ImagingPaste]) with the box (0, 0) + the source's
    size: the sizes of source and mask must agree, the mode of the mask
    selects the blend, and the write is clipped to the destination. *)
Definition ImagingPaste (imOut imIn imMask : Image) : result Image :=
  if negb (Nat.eqb (pixelsize (mode imOut)) (pixelsize (mode imIn)))
    then Raise "images do not match"
  else if negb (size_eqb (size imMask) (size imIn))
    then Raise "images do not match"
  else
    let src_rows :=
      map (map (source_pixel (mode imOut) (mode imIn))) (pixels imIn) in
    match mode imMask with
    | M_1 =>
        Ok {| mode := mode imOut; size := size imOut;
              pixels := paste_rows paste_mask_1 (pixels imOut) src_rows
                          (pixels imMask) |}
    | M_L | M_LA | M_RGBA =>
        Ok {| mode := mode imOut; size := size imOut;
              pixels := paste_rows paste_mask_L (pixels imOut) src_rows
                          (pixels imMask) |}
    | _ => Raise "bad transparency mask"
    end.

(** The Python layer: an image of another mode is converted to the
    destination's mode first, except that an RGB destination takes LA
    and RGBA sources as they are. *)
Definition paste (self im mask : Image) : result Image :=
  src <- (if mode_eqb (mode self) (mode im) then Ok im
          else if (mode_eqb (mode self) M_RGB
                   && (mode_eqb (mode im) M_LA || mode_eqb (mode im) M_RGBA))%bool
            then Ok im
          else convert im (mode self)) ;;
  ImagingPaste self src mask.

(** [Image.composite(image1, image2, mask)]: a copy of [image2] with
    [image1] pasted through [mask]. *)
Definition composite (image1 image2 mask : Image) : result Image :=
  paste image2 image1 mask.

End Operations.

End PIL.

(** ** Floating-point numbers

    IEEE 754 binary formats over [spec_float]: Python's [float] is binary64,
    NumPy's [float32] is binary32. *)

Module Float64.
Definition prec : Z := 53.
Definition emax : Z := 1024.
Definition of_int (z : Z) : spec_float := binary_normalize prec emax z 0 false.
Definition div (a b : spec_float) : spec_float := SFdiv prec emax a b.
(** Python's [x != 0]. *)
Definition nonzero (a : spec_float) : bool := negb (SFeqb a (S754_zero false)).
End Float64.

Module Float32.
Definition prec : Z := 24.
Definition emax : Z := 128.
Definition of_int (z : Z) : spec_float := binary_normalize prec emax z 0 false.
Definition mul (a b : spec_float) : spec_float := SFmul prec emax a b.
Definition zero : spec_float := S754_zero false.
Definition one : spec_float := of_int 1.
Definition half : spec_float := S754_finite false 8388608 (-24).

(** The integer part, rounding toward zero (a C cast to an integer type);
    infinities and NaN, on which the cast is undefined, are sent to 0. *)
Definition trunc (f : spec_float) : Z :=
  match f with
  | S754_finite s m e =>
      let a := match e with
               | Z0 => Zpos m
               | Zpos p => Z.shiftl (Zpos m) (Zpos p)
               | Zneg p => Z.shiftr (Zpos m) (Zpos p)
               end in
      if s then - a else a
  | _ => 0
  end.
End Float32.

(** ** NumPy arrays *)

Module Np.

Inductive dtype := np_bool | np_uint8 | np_int64 | np_float32.

(** An element: an integer (booleans are 0 and 1) or a binary32 float. *)
Inductive scalar :=
| I (z : Z)
| F (f : spec_float).

(** Row-major (C order) data. *)
Record ndarray := {
  dtype_of : dtype;
  shape : list nat;
  data : list scalar
}.

(** An array of dtype [uint8], the result of [astype(np.uint8)]. *)
Record uint8_array := {
  shape8 : list nat;
  bytes : list Z
}.

(** [np.array(im)] of a Pillow image: booleans for mode 1, bytes for the
    other modes; shape (height, width) for one band and
    (height, width, bands) otherwise. *)
Definition array_of_image (im : PIL.Image) : ndarray :=
  let flat := concat (concat (PIL.pixels im)) in
  {| dtype_of := match PIL.mode im with PIL.M_1 => np_bool | _ => np_uint8 end;
     shape := if Nat.eqb (PIL.bands (PIL.mode im)) 1
              then [PIL.height im; PIL.width im]
              else [PIL.height im; PIL.width im; PIL.bands (PIL.mode im)];
     data := match PIL.mode im with
             | PIL.M_1 => map (fun v => I (if Z.eqb v 0 then 0 else 1)) flat
             | _ => map I flat
             end |}.

(** [np.squeeze(a)]: every axis of length one is removed. *)
Definition squeeze (a : ndarray) : ndarray :=
  {| dtype_of := dtype_of a;
     shape := filter (fun n => negb (Nat.eqb n 1)) (shape a);
     data := data a |}.

Definition wrap_int64 (z : Z) : Z := (z + 2 ^ 63) mod 2 ^ 64 - 2 ^ 63.

(** [a * 255]: a boolean array is promoted to int64, the other dtypes are
    kept, integers wrapping around at their width. *)
Definition mul_scalar (dt : dtype) (x : scalar) : scalar :=
  match x with
  | I z =>
      match dt with
      | np_uint8 => I ((z * 255) mod 256)
      | _ => I (wrap_int64 (z * 255))
      end
  | F f => F (Float32.mul f (Float32.of_int 255))
  end.

Definition mul_255 (a : ndarray) : ndarray :=
  {| dtype_of := match dtype_of a with np_bool => np_int64 | d => d end;
     shape := shape a;
     data := map (mul_scalar (dtype_of a)) (data a) |}.

(** [a.astype(np.uint8)]: integers are reduced modulo 256, floats are
    truncated toward zero first. *)
Definition to_uint8 (x : scalar) : Z :=
  match x with
  | I z => z mod 256
  | F f => Float32.trunc f mod 256
  end.

Definition astype_uint8 (a : ndarray) : uint8_array :=
  {| shape8 := shape a; bytes := map to_uint8 (data a) |}.

Definition show_nat (n : nat) : string :=
  NilZero.string_of_uint (Nat.to_uint n).

Fixpoint show_dims (l : list nat) : string :=
  match l with
  | [] => ""
  | n :: r => ", " ++ show_nat n ++ show_dims r
  end.

(** [Image.fromarray(a)] for a [uint8] array.  The shape beyond the first
    two axes selects the mode: none gives L, a third axis of 2, 3 or 4
    gives LA, RGB or RGBA, anything else is a [TypeError].  The size is
    (1, shape[0]) for one axis and (shape[1], shape[0]) otherwise, so that
    an array without axes fails on [shape[1]]. *)
Definition fromarray (a : uint8_array) : result PIL.Image :=
  let sh := shape8 a in
  m <- match skipn 2 sh with
       | [] => Ok PIL.M_L
       | [2%nat] => Ok PIL.M_LA
       | [3%nat] => Ok PIL.M_RGB
       | [4%nat] => Ok PIL.M_RGBA
       | rest => Raise ("Cannot handle this data type: (1, 1"
                        ++ show_dims rest ++ "), |u1")
       end ;;
  match sh with
  | [] => Raise "tuple index out of range"
  | h :: rest =>
      let w := match rest with [] => 1%nat | w :: _ => w end in
      let px := chunks (PIL.bands m) (w * h) (bytes a) in
      Ok {| PIL.mode := m; PIL.size := (w, h); PIL.pixels := chunks w h px |}
  end.

End Np.

(** ** OpenCV values *)

Module Cv2.

(** A contour: its vertices, integer pixel coordinates (x, y). *)
Definition contour := list (Z * Z).

(** The entries of [cv2.moments] that the pipeline reads. *)
Record Moments := {
  m00 : spec_float;
  m10 : spec_float;
  m01 : spec_float
}.

End Cv2.

(** ** Computations that may raise and that touch the network's state

    A Python exception leaves the state changes made before it in place, so
    the state is returned next to the result in both cases. *)

Definition M (W A : Type) : Type := W -> result A * W.

Definition ret {W A : Type} (a : A) : M W A := fun w => (Ok a, w).

Definition lift {W A : Type} (r : result A) : M W A := fun w => (r, w).

Definition bindM {W A B : Type} (c : M W A) (k : A -> M W B) : M W B :=
  fun w =>
    match c w with
    | (Ok a, w') => k a w'
    | (Raise e, w') => (Raise e, w')
    end.

Notation "x <~ c1 ;; c2" := (bindM c1 (fun x => c2))
  (at level 61, c1 at next level, right associativity).

(** [try: body / except Exception as e: handler e]. *)
Definition try_except {W A : Type} (body : M W A) (handler : string -> M W A)
  : M W A :=
  fun w =>
    match body w with
    | (Ok a, w') => (Ok a, w')
    | (Raise e, w') => handler e w'
    end.

(** ** The application (src/app.py) *)

(** A prompt point [[cx, cy]] of Python floats. *)
Definition point : Type := spec_float * spec_float.

(** The value of the [gr.ImageMask] component, when it holds one: a
    dictionary that carries the keys ["background"] and ["layers"] (and
    ["composite"], which is not read).  The background may be null; the
    layer list may be null or empty, and a layer may be null. *)
Record EditorValue := {
  background : option PIL.Image;
  layers : option (list (option PIL.Image))
}.

(** What reaches [process_segmentation] as [image_editor].  The annotation
    says [dict]; the component hands over [None] while it holds no value,
    and an editor value otherwise.  Of a dict, each of the two items that
    the function reads is absent or holds a value, which may be null. *)
Inductive EditorArg :=
| PyNone
| PyDict (background_item : option (option PIL.Image))
         (layers_item : option (option (list (option PIL.Image)))).

(** An editor value is a dict in which both items are present; where a
    statement hands an [EditorValue] to the function, it is this dict. *)
Definition of_value (v : EditorValue) : EditorArg :=
  PyDict (Some (background v)) (Some (layers v)).

Coercion of_value : EditorValue >-> EditorArg.

(** [image_editor["background"]] and [image_editor["layers"]]: a
    [TypeError] on [None], a [KeyError] on a dict without the key. *)
Definition getitem_background (image_editor : EditorArg)
  : result (option PIL.Image) :=
  match image_editor with
  | PyNone => Raise "'NoneType' object is not subscriptable"
  | PyDict None _ => Raise "'background'"
  | PyDict (Some item) _ => Ok item
  end.

Definition getitem_layers (image_editor : EditorArg)
  : result (option (list (option PIL.Image))) :=
  match image_editor with
  | PyNone => Raise "'NoneType' object is not subscriptable"
  | PyDict _ None => Raise "'layers'"
  | PyDict _ (Some item) => Ok item
  end.

(** The list [[drawn_mask, sam_mask, result_image, markdown_message]] that
    [process_segmentation] returns. *)
Record outputs := {
  out_drawn_mask : option PIL.Image;
  out_sam_mask : option PIL.Image;
  out_result_image : option PIL.Image;
  out_message : string
}.

Definition upload_message : string :=
  "**❌ Error:** Please upload both images.".

Definition no_mask_message : string :=
  "**❌ Error:** No mask drawn. Please draw a mask on the original image.".

Definition fallback_message : string :=
  "**⚠️ Warning:** SAM2 model unavailable, using drawn mask as mask.".

Definition model_message_ok : string :=
  "**✅ Success:** Segmentation completed with SAM2.".

Definition error_message (e : string) : string :=
  "**❌ Error:** Segmentation error: " ++ e.

(** The severity marker that leads a status message. *)
Inductive severity := SevError | SevWarning | SevSuccess | SevNone.

Definition severity_of (msg : string) : severity :=
  if String.prefix "**❌ Error:**" msg then SevError
  else if String.prefix "**⚠️ Warning:**" msg then SevWarning
  else if String.prefix "**✅ Success:**" msg then SevSuccess
  else SevNone.

Section App.

(** Pillow's resampling filter and mode conversion. *)
Variable resample : PIL.Image -> nat * nat -> result (list (list PIL.pixel)).
Variable convert_pixels :
  PIL.Image -> PIL.pil_mode -> result (list (list PIL.pixel)).

(** [cv2.findContours(a, cv2.RETR_EXTERNAL, cv2.CHAIN_APPROX_SIMPLE)],
    first component, and [cv2.moments]. *)
Variable findContours : Np.ndarray -> result (list Cv2.contour).
Variable moments : Cv2.contour -> Cv2.Moments.

(** The SAM2 network: its handle, the state outside the program that its
    calls read and update, loading from a weights file, and a call
    [model(source=image, points=[points])] followed by
    [results[0].masks.data.numpy()]. *)
Variable SAM : Type.
Variable world : Type.
Variable load : string -> M world SAM.
Variable predict : SAM -> PIL.Image -> list (list point) -> M world Np.ndarray.

Record ImageSegmentationApp := {
  model : option SAM;
  model_available : bool
}.

(** [__init__]: the model is loaded once; a failure leaves the app without
    a model. *)
Definition init : M world ImageSegmentationApp :=
  try_except
    (m <~ load "sam2.1_t.pt" ;;
     ret {| model := Some m; model_available := true |})
    (fun _ => ret {| model := None; model_available := false |}).

(** Lines 35-38: [image_editor["layers"][0].split()[-1]]. *)
Definition drawn_mask_of (image_editor : EditorArg) : result PIL.Image :=
  item <- getitem_layers image_editor ;;
  ls <- match item with
        | None => Raise "'NoneType' object is not subscriptable"
        | Some ls => Ok ls
        end ;;
  layer <- match ls with
           | [] => Raise "list index out of range"
           | layer :: _ => Ok layer
           end ;;
  match layer with
  | None => Raise "'NoneType' object has no attribute 'split'"
  | Some im => Ok (last (PIL.split im) im)
  end.

(** Lines 45-54: the point of one contour. *)
Definition point_of_contour (c : Cv2.contour) : result point :=
  let M := moments c in
  if Float64.nonzero (Cv2.m00 M)
  then Ok (Float64.div (Cv2.m10 M) (Cv2.m00 M),
           Float64.div (Cv2.m01 M) (Cv2.m00 M))
  else match c with
       | [] => Raise "index 0 is out of bounds for axis 0 with size 0"
       | (x, y) :: _ => Ok (Float64.of_int x, Float64.of_int y)
       end.

(** Lines 42-54: the loop over the contours, appending one point each. *)
Fixpoint points_of_contours (contours : list Cv2.contour)
  : result (list point) :=
  match contours with
  | [] => Ok []
  | c :: rest =>
      p <- point_of_contour c ;;
      ps <- points_of_contours rest ;;
      Ok (p :: ps)
  end.

(** Lines 39-54. *)
Definition extract_points (drawn_mask : PIL.Image) : result (list point) :=
  contours <- findContours (Np.array_of_image drawn_mask) ;;
  points_of_contours contours.

(** Lines 72-74. *)
Definition mask_of_output (result_numpy_arr : Np.ndarray)
  : result PIL.Image :=
  Np.fromarray (Np.astype_uint8 (Np.mul_255 (Np.squeeze result_numpy_arr))).

(** Lines 60-75: the drawn mask when [not self.model_available or not
    self.model], the post-processed network output otherwise. *)
Definition refine (self : ImageSegmentationApp) (original_image : PIL.Image)
  (points : list point) (drawn_mask : PIL.Image)
  : M world (PIL.Image * string) :=
  match model self with
  | Some m =>
      if model_available self then
        result_numpy_arr <~ predict m original_image [points] ;;
        sam_mask <~ lift (mask_of_output result_numpy_arr) ;;
        ret (sam_mask, model_message_ok)
      else ret (drawn_mask, fallback_message)
  | None => ret (drawn_mask, fallback_message)
  end.

(** Lines 77-80. *)
Definition replace_region (original_image replacement_image sam_mask : PIL.Image)
  : result PIL.Image :=
  resized <- PIL.resize resample replacement_image (PIL.size original_image) ;;
  PIL.composite convert_pixels resized original_image sam_mask.

(** Lines 33-82: the body of the [try].  [original_image] is the item that
    line 30 has read and found not to be null; line 34 reads it again. *)
Definition try_body (self : ImageSegmentationApp) (image_editor : EditorArg)
  (original_image replacement_image : PIL.Image) : M world outputs :=
  drawn_mask <~ lift (drawn_mask_of image_editor) ;;
  points <~ lift (extract_points drawn_mask) ;;
  match points with
  | [] =>
      ret {| out_drawn_mask := None; out_sam_mask := None;
             out_result_image := Some original_image;
             out_message := no_mask_message |}
  | _ :: _ =>
      refined <~ refine self original_image points drawn_mask ;;
      result_image <~ lift (replace_region original_image replacement_image
                              (fst refined)) ;;
      ret {| out_drawn_mask := Some drawn_mask;
             out_sam_mask := Some (fst refined);
             out_result_image := Some result_image;
             out_message := snd refined |}
  end.

(** Lines 20-86.  The subscript of line 30 is evaluated before the [try]
    is entered: what it raises leaves the function. *)
Definition process_segmentation (self : ImageSegmentationApp)
  (image_editor : EditorArg) (replacement_image : option PIL.Image)
  : M world outputs :=
  item <~ lift (getitem_background image_editor) ;;
  match item, replacement_image with
  | Some original_image, Some replacement_image =>
      try_except
        (try_body self image_editor original_image replacement_image)
        (fun e =>
           ret {| out_drawn_mask := None; out_sam_mask := None;
                  out_result_image := None;
                  out_message := error_message e |})
  | _, _ =>
      ret {| out_drawn_mask := None; out_sam_mask := None;
             out_result_image := None;
             out_message := upload_message |}
  end.

End App.

Arguments model {SAM} _.
Arguments model_available {SAM} _.
Arguments Build_ImageSegmentationApp {SAM} _ _.
Arguments init {SAM world} load _.
Arguments refine {SAM world} predict self original_image points drawn_mask _.
Arguments try_body resample convert_pixels findContours moments {SAM world}
  predict self image_editor original_image replacement_image _.
Arguments process_segmentation resample convert_pixels findContours moments
  {SAM world} predict self image_editor replacement_image _.

(** ** Vocabulary of the specification *)

(** A [Failure] carries a message and no image; a [Success] carries the
    drawn mask, the refined mask, the result image and a message; the
    "no mask drawn" outcome carries the original image in the result slot. *)
Definition Failure (message : string) : outputs :=
  {| out_drawn_mask := None; out_sam_mask := None; out_result_image := None;
     out_message := message |}.

Definition Success (drawnMask refinedMask resultImage : PIL.Image)
  (message : string) : outputs :=
  {| out_drawn_mask := Some drawnMask; out_sam_mask := Some refinedMask;
     out_result_image := Some resultImage; out_message := message |}.

Definition NoMaskDrawn (original : PIL.Image) : outputs :=
  {| out_drawn_mask := None; out_sam_mask := None;
     out_result_image := Some original; out_message := no_mask_message |}.

(** The provider is unavailable: the fallback branch of line 61. *)
Definition model_unavailable {SAM : Type} (self : ImageSegmentationApp SAM)
  : Prop :=
  model self = None \/ model_available self = false.

(** What the resampling filter owes: a raster of the requested size in the
    mode of its argument. *)
Definition resample_sound
  (resample : PIL.Image -> nat * nat -> result (list (list PIL.pixel)))
  : Prop :=
  forall im sz rows,
    PIL.well_formed im = true -> resample im sz = Ok rows ->
    PIL.rows_ok (PIL.mode im) sz rows = true.

(** Every pixel of the mask holds the value [v]. *)
Definition uniform_mask (v : Z) (mask : PIL.Image) : Prop :=
  forall x y, (x < PIL.width mask)%nat -> (y < PIL.height mask)%nat ->
    PIL.getband mask x y 0 = v.

(** The modes that [paste] accepts for a mask. *)
Definition transparency_mask (m : PIL.pil_mode) : bool :=
  match m with
  | PIL.M_1 | PIL.M_L | PIL.M_LA | PIL.M_RGBA => true
  | _ => false
  end.

(** The source modes that an RGB destination takes without conversion. *)
Definition pasted_directly (dst src : PIL.pil_mode) : bool :=
  PIL.mode_eqb dst src
  || (PIL.mode_eqb dst PIL.M_RGB
      && (PIL.mode_eqb src PIL.M_LA || PIL.mode_eqb src PIL.M_RGBA)).

(** The image that [paste] blends into the destination: the pasted image
    read through the destination's band layout when it is taken as it is,
    its conversion to the destination's mode otherwise. *)
Definition pasted_source
  (convert_pixels : PIL.Image -> PIL.pil_mode -> result (list (list PIL.pixel)))
  (self im : PIL.Image) : result PIL.Image :=
  if pasted_directly (PIL.mode self) (PIL.mode im)
  then Ok {| PIL.mode := PIL.mode self; PIL.size := PIL.size im;
             PIL.pixels := map (map (PIL.source_pixel (PIL.mode self)
                                       (PIL.mode im)))
                               (PIL.pixels im) |}
  else PIL.convert convert_pixels im (PIL.mode self).

(** What the mode conversion owes: a raster of its argument's size in the
    requested mode. *)
Definition convert_sound
  (convert_pixels : PIL.Image -> PIL.pil_mode -> result (list (list PIL.pixel)))
  : Prop :=
  forall im m rows,
    PIL.well_formed im = true -> convert_pixels im m = Ok rows ->
    PIL.rows_ok m (PIL.size im) rows = true.

(** A strict binary mask: single channel, every pixel 0 or 255. *)
Definition binary_mask (mask : PIL.Image) : Prop :=
  PIL.mode mask = PIL.M_L /\
  forall x y, (x < PIL.width mask)%nat -> (y < PIL.height mask)%nat ->
    PIL.getband mask x y 0 = 0 \/ PIL.getband mask x y 0 = 255.

(** An element that is exactly false or true, 0 or 1, 0.0 or 1.0. *)
Definition binary_scalar (x : Np.scalar) : Prop :=
  x = Np.I 0 \/ x = Np.I 1 \/ x = Np.F Float32.zero \/ x = Np.F Float32.one.

(** A float32 element in the interval [0, 1]. *)
Definition unit_interval (x : Np.scalar) : bool :=
  match x with
  | Np.I z => (0 <=? z) && (z <=? 1)
  | Np.F f => SFleb Float32.zero f && SFleb f Float32.one
  end.

(** The result of a computation does not depend on the state it starts
    from: a deterministic collaborator. *)
Definition state_blind {W A : Type} (c : M W A) : Prop :=
  forall w1 w2, fst (c w1) = fst (c w2).

(** The positions (x, y) of the non-zero entries of a two-axis array, in
    raster order. *)
Definition is_set (s : Np.scalar) : bool :=
  match s with
  | Np.I z => negb (Z.eqb z 0)
  | Np.F _ => true
  end.

Fixpoint foreground_from (w : nat) (i : nat) (l : list Np.scalar)
  : list (Z * Z) :=
  match l with
  | [] => []
  | s :: r =>
      let rest := foreground_from w (S i) r in
      if is_set s
      then (Z.of_nat (i mod w), Z.of_nat (i / w)) :: rest
      else rest
  end%nat.

Definition foreground (a : Np.ndarray) : list (Z * Z) :=
  foreground_from (nth 1 (Np.shape a) 1%nat) 0 (Np.data a).











(** ** Concrete collaborators and inputs for the examples *)

Module Demo.

Import PIL.

(** Nearest-neighbour resampling, sampling at pixel centres. *)
Definition nearest_rows (im : Image) (sz : nat * nat)
  : result (list (list pixel)) :=
  let blank := repeat 0 (bands (mode im)) in
  Ok (map (fun y =>
             map (fun x =>
                    nth (((2 * x + 1) * width im) / (2 * fst sz))
                        (nth (((2 * y + 1) * height im) / (2 * snd sz))
                             (pixels im) [])
                        blank)
                 (seq 0 (fst sz)))
          (seq 0 (snd sz)))%nat.

(** No conversion between modes is on offer. *)
Definition no_convert (im : Image) (m : pil_mode)
  : result (list (list pixel)) :=
  Raise "conversion not supported".

(** The conversion from RGB to L, the ITU-R 601-2 luma transform in the
    fixed-point form of Pillow's C layer,
    [(R * 19595 + G * 38470 + B * 7471 + 0x8000) >> 16]; no other
    conversion is on offer. *)
Definition luma (px : pixel) : Z :=
  Z.shiftr (nth 0 px 0 * 19595 + nth 1 px 0 * 38470 + nth 2 px 0 * 7471
            + 32768) 16.

Definition luma_convert (im : Image) (m : pil_mode)
  : result (list (list pixel)) :=
  match mode im, m with
  | M_RGB, M_L => Ok (map (map (fun px => [luma px])) (pixels im))
  | _, _ => Raise "conversion not supported"
  end.

(** 9x9 masks: a ring one pixel thick inside a one-pixel margin, around a
    5x5 hole; a 3x3 block; and the two together, the block in the middle
    of the hole, one pixel away from the ring on every side. *)
Definition ring_rows : list (list Z) :=
  [ [0;  0;  0;  0;  0;  0;  0;  0;0];
    [0;255;255;255;255;255;255;255;0];
    [0;255;  0;  0;  0;  0;  0;255;0];
    [0;255;  0;  0;  0;  0;  0;255;0];
    [0;255;  0;  0;  0;  0;  0;255;0];
    [0;255;  0;  0;  0;  0;  0;255;0];
    [0;255;  0;  0;  0;  0;  0;255;0];
    [0;255;255;255;255;255;255;255;0];
    [0;  0;  0;  0;  0;  0;  0;  0;0] ].

Definition block_rows : list (list Z) :=
  [ [0;0;0;  0;  0;  0;0;0;0];
    [0;0;0;  0;  0;  0;0;0;0];
    [0;0;0;  0;  0;  0;0;0;0];
    [0;0;0;255;255;255;0;0;0];
    [0;0;0;255;255;255;0;0;0];
    [0;0;0;255;255;255;0;0;0];
    [0;0;0;  0;  0;  0;0;0;0];
    [0;0;0;  0;  0;  0;0;0;0];
    [0;0;0;  0;  0;  0;0;0;0] ].

Definition union_rows (a b : list (list Z)) : list (list Z) :=
  map (fun rr => map (fun vv => Z.max (fst vv) (snd vv))
                     (combine (fst rr) (snd rr)))
      (combine a b).

Definition mask_of_rows (rows : list (list Z)) : Image :=
  {| mode := M_L;
     size := (length (nth 0 rows []), length rows);
     pixels := map (map (fun v => [v])) rows |}.

Definition ring : Image := mask_of_rows ring_rows.
Definition block : Image := mask_of_rows block_rows.
Definition ring_and_block : Image :=
  mask_of_rows (union_rows ring_rows block_rows).

Definition scalar_eqb (a b : Np.scalar) : bool :=
  match a, b with
  | Np.I x, Np.I y => Z.eqb x y
  | _, _ => false
  end.

Fixpoint data_eqb (a b : list Np.scalar) : bool :=
  match a, b with
  | [], [] => true
  | x :: a', y :: b' => scalar_eqb x y && data_eqb a' b'
  | _, _ => false
  end.

Definition array_of (a : Np.ndarray) (mask : Image) : bool :=
  data_eqb (Np.data a) (Np.data (Np.array_of_image mask)).

(** The external contours that OpenCV reports on the masks of the
    examples: none on an all-zero mask; the pixel itself on a mask with a
    single foreground pixel; the four corners of the block on [block];
    the four outer corners of the ring on [ring], and on [ring_and_block]
    too, the block inside the hole not being an outermost contour.
    Other masks are not tabulated. *)
Definition external_contours (a : Np.ndarray) : result (list Cv2.contour) :=
  match foreground a with
  | [] => Ok []
  | [p] => Ok [[p]]
  | _ =>
      if array_of a ring || array_of a ring_and_block
      then Ok [[(1, 1); (1, 7); (7, 7); (7, 1)]]
      else if array_of a block
      then Ok [[(3, 3); (3, 5); (5, 5); (5, 3)]]
      else Raise "contour table: mask not tabulated"
  end.

(** Contour moments by Green's formula, as OpenCV accumulates them: the
    sums [a00], [a10], [a01] over the edges, then [m00 = |a00| / 2] and
    [m10, m01 = a10 / 6, a01 / 6] with the sign of [a00]. *)
Fixpoint green_sums (prev : Z * Z) (c : Cv2.contour) (acc : Z * Z * Z)
  : Z * Z * Z :=
  match c with
  | [] => acc
  | (x, y) :: r =>
      let '(a00, a10, a01) := acc in
      let dxy := fst prev * y - x * snd prev in
      green_sums (x, y) r
        (a00 + dxy, a10 + dxy * (fst prev + x), a01 + dxy * (snd prev + y))
  end.

Definition f64_mul (a b : spec_float) : spec_float :=
  SFmul Float64.prec Float64.emax a b.

Definition contour_moments (c : Cv2.contour) : Cv2.Moments :=
  let '(a00, a10, a01) := green_sums (last c (0, 0)) c (0, 0, 0) in
  if Z.eqb a00 0 then
    {| Cv2.m00 := S754_zero false; Cv2.m10 := S754_zero false;
       Cv2.m01 := S754_zero false |}
  else
    let sgn := if 0 <? a00 then 1 else -1 in
    let half := Float64.div (Float64.of_int sgn) (Float64.of_int 2) in
    let sixth := Float64.div (Float64.of_int sgn) (Float64.of_int 6) in
    {| Cv2.m00 := f64_mul (Float64.of_int a00) half;
       Cv2.m10 := f64_mul (Float64.of_int a10) sixth;
       Cv2.m01 := f64_mul (Float64.of_int a01) sixth |}.

(** A network without state whose weights cannot be loaded, and one that
    answers with a fixed array. *)
Definition load_fails (path : string) : M unit unit :=
  lift (Raise "sam2.1_t.pt: weights not found").

Definition load_succeeds (path : string) : M unit unit := ret tt.

Definition predict_const (a : Np.ndarray) (m : unit) (im : Image)
  (points : list (list point)) : M unit Np.ndarray := ret a.

(** Small images. *)
Definition rgb (w h : nat) (px : pixel) : Image :=
  {| mode := M_RGB; size := (w, h); pixels := repeat (repeat px w) h |}.

Definition red : pixel := [255; 0; 0].
Definition blue : pixel := [0; 0; 255].

Definition grey (w h : nat) (v : Z) : Image :=
  {| mode := M_L; size := (w, h); pixels := repeat (repeat [v] w) h |}.

(** A two by two RGBA layer, transparent except for the listed alpha
    values. *)
Definition layer_of_alpha (rows : list (list Z)) : Image :=
  {| mode := M_RGBA;
     size := (length (nth 0 rows []), length rows);
     pixels := map (map (fun a => [255; 255; 255; a])) rows |}.

Definition centre_rows : list (list Z) := [[0; 0; 0]; [0; 255; 0]; [0; 0; 0]].
Definition blank_rows : list (list Z) := [[0; 0; 0]; [0; 0; 0]; [0; 0; 0]].

Definition centre_layer : Image := layer_of_alpha centre_rows.
Definition blank_layer : Image := layer_of_alpha blank_rows.
Definition centre_mask : Image := mask_of_rows centre_rows.
Definition soft_mask : Image := mask_of_rows [[0; 255]; [128; 64]].

Definition blue_rgba (w h : nat) : Image :=
  {| mode := M_RGBA; size := (w, h);
     pixels := repeat (repeat [0; 0; 255; 128] w) h |}.

Definition editor (original layer : Image) : EditorValue :=
  {| background := Some original; layers := Some [Some layer] |}.

Definition app_without_model : ImageSegmentationApp unit :=
  {| model := None; model_available := false |}.

Definition app_with_model : ImageSegmentationApp unit :=
  {| model := Some tt; model_available := true |}.

(** Network outputs of shape (1, 2, 2): one with a fractional value, one
    with zeros and ones only. *)
Definition half_output : Np.ndarray :=
  {| Np.dtype_of := Np.np_float32; Np.shape := [1; 2; 2]%nat;
     Np.data := map Np.F [Float32.half; Float32.one;
                          Float32.zero; Float32.one] |}.

Definition binary_output : Np.ndarray :=
  {| Np.dtype_of := Np.np_float32; Np.shape := [1; 2; 2]%nat;
     Np.data := map Np.F [Float32.one; Float32.one;
                          Float32.zero; Float32.one] |}.

Definition run (arr : Np.ndarray) :=
  process_segmentation nearest_rows no_convert external_contours
    contour_moments (predict_const arr).

End Demo.

(** ** Further vocabulary and inputs *)

(** A mask that selects nothing: the matte value of every pixel is 0. *)
Definition blank_mask (mask : PIL.Image) : Prop :=
  forall row px, In row (PIL.pixels mask) -> In px row -> PIL.matte px = 0.

(** An element that is false, 0 or 0.0. *)
Definition zero_scalar (x : Np.scalar) : Prop :=
  x = Np.I 0 \/ x = Np.F Float32.zero.

Module Cases.

Import PIL.

(** A network whose state counts its calls. *)
Definition predict_counting (a : Np.ndarray) (m : unit) (im : Image)
  (points : list (list point)) : M nat Np.ndarray :=
  fun calls => (Ok a, S calls).

Definition load_counting_fails (path : string) : M nat unit :=
  fun calls => (Raise "sam2.1_t.pt: weights not found", S calls).

(** A layer painted faintly in its centre, and an RGB layer without alpha
    whose blue band is set in the centre. *)
Definition faint_layer : Image :=
  Demo.layer_of_alpha [[0; 0; 0]; [0; 7; 0]; [0; 0; 0]].

Definition blue_dot_layer : Image :=
  {| mode := M_RGB; size := (3, 3)%nat;
     pixels := [ [[9; 9; 0]; [9; 9; 0]; [9; 9; 0]];
                 [[9; 9; 0]; [9; 9; 255]; [9; 9; 0]];
                 [[9; 9; 0]; [9; 9; 0]; [9; 9; 0]] ] |}.

(** Network outputs: all zeros for a 2x2 image, a 1x3 image behind a leading
    axis, a single pixel, and two masks of a 2x5 image. *)
Definition float_output (sh : list nat) (values : list spec_float)
  : Np.ndarray :=
  {| Np.dtype_of := Np.np_float32; Np.shape := sh;
     Np.data := map Np.F values |}.

Definition zero_output : Np.ndarray :=
  float_output [1; 2; 2]%nat (repeat Float32.zero 4).

Definition row_output : Np.ndarray :=
  float_output [1; 1; 3]%nat (repeat Float32.one 3).

Definition pixel_output : Np.ndarray :=
  float_output [1; 1; 1]%nat [Float32.one].

Definition two_masks_output : Np.ndarray :=
  float_output [2; 2; 5]%nat (repeat Float32.one 20).

Definition run_counting (arr : Np.ndarray) :=
  process_segmentation Demo.nearest_rows Demo.no_convert
    Demo.external_contours Demo.contour_moments (predict_counting arr).

End Cases.

(** * Properties *)

(** ** Lists *)

Section ListFacts.

Context {A B : Type}.
Variable f : A -> B -> A.

Lemma overlay_length (d : list A) (s : list B) :
  length (overlay f d s) = length d.
Proof.
  revert s; induction d as [|a d IH]; intros [|b s]; simpl; auto.
Qed.

Lemma nth_overlay (d : list A) (s : list B) (i : nat) (da : A) (db : B) :
  (i < length d)%nat -> (i < length s)%nat ->
  nth i (overlay f d s) da = f (nth i d da) (nth i s db).
Proof.
  revert s i; induction d as [|a d IH]; intros [|b s] [|i]; simpl;
    intros Hd Hs; try lia; auto.
  apply IH; lia.
Qed.

Lemma overlay_keeps (d : list A) (s : list B) :
  (forall a b, In a d -> In b s -> f a b = a) -> overlay f d s = d.
Proof.
  revert s; induction d as [|a d IH]; intros [|b s] H; simpl; auto.
  rewrite H by (left; reflexivity).
  rewrite IH; auto.
  intros a' b' Ha Hb. apply H; right; assumption.
Qed.

End ListFacts.

Lemma nth_overlay_rows_length {A B : Type} (f : A -> B -> A)
  (d : list (list A)) (s : list (list B)) (y : nat) :
  length (nth y (overlay (overlay f) d s) []) = length (nth y d []).
Proof.
  revert s y; induction d as [|r d IH]; intros [|q s] [|y]; simpl; auto.
  apply overlay_length.
Qed.

Lemma forallb_nth {A : Type} (p : A -> bool) (l : list A) (i : nat) (d : A) :
  forallb p l = true -> (i < length l)%nat -> p (nth i l d) = true.
Proof.
  intros H Hi. rewrite forallb_forall in H. apply H. apply nth_In. exact Hi.
Qed.

(** ** Blending arithmetic *)

Lemma DIV255_rounds (a : Z) :
  0 <= a <= 65025 ->
  0 <= PIL.DIV255 a <= 255 /\ 255 * PIL.DIV255 a - 127 <= a <= 255 * PIL.DIV255 a + 127.
Proof.
  intros Ha. unfold PIL.DIV255. cbv zeta.
  rewrite !Z.shiftr_div_pow2 by lia.
  change (2 ^ 8) with 256.
  pose proof (Z.div_mod (a + 128) 256 ltac:(lia)) as E1.
  pose proof (Z.mod_pos_bound (a + 128) 256 ltac:(lia)) as B1.
  set (q := (a + 128) / 256) in *.
  pose proof (Z.div_mod (q + (a + 128)) 256 ltac:(lia)) as E2.
  pose proof (Z.mod_pos_bound (q + (a + 128)) 256 ltac:(lia)) as B2.
  set (r := (q + (a + 128)) / 256) in *.
  lia.
Qed.

Lemma blend_argument_range (m o i : Z) :
  0 <= m <= 255 -> 0 <= o <= 255 -> 0 <= i <= 255 ->
  0 <= o * (255 - m) + i * m <= 65025.
Proof. intros Hm Ho Hi. nia. Qed.

Lemma BLEND8_interpolates (m o i : Z) :
  0 <= m <= 255 -> 0 <= o <= 255 -> 0 <= i <= 255 ->
  0 <= PIL.BLEND8 m o i <= 255 /\
  Z.abs (255 * PIL.BLEND8 m o i - (255 * o + (i - o) * m)) <= 127.
Proof.
  intros Hm Ho Hi.
  pose proof (blend_argument_range m o i Hm Ho Hi) as Ha.
  destruct (DIV255_rounds _ Ha) as [Hr Hn].
  unfold PIL.BLEND8, PIL.uint8.
  rewrite Z.mod_small by lia.
  split; [lia|].
  replace (255 * o + (i - o) * m) with (o * (255 - m) + i * m) by ring.
  lia.
Qed.

Lemma BLEND8_zero (o i : Z) : 0 <= o <= 255 -> PIL.BLEND8 0 o i = o.
Proof.
  intros Ho. unfold PIL.BLEND8, PIL.uint8.
  replace (o * (255 - 0) + i * 0) with (o * 255) by ring.
  destruct (DIV255_rounds (o * 255) ltac:(lia)) as [Hr Hn].
  rewrite Z.mod_small by lia. lia.
Qed.

Lemma BLEND8_full (o i : Z) : 0 <= i <= 255 -> PIL.BLEND8 255 o i = i.
Proof.
  intros Hi. unfold PIL.BLEND8, PIL.uint8.
  replace (o * (255 - 255) + i * 255) with (i * 255) by ring.
  destruct (DIV255_rounds (i * 255) ltac:(lia)) as [Hr Hn].
  rewrite Z.mod_small by lia. lia.
Qed.

(** ** Pillow operations *)

Lemma size_eqb_eq (a b : nat * nat) : PIL.size_eqb a b = true <-> a = b.
Proof.
  destruct a as [a1 a2], b as [b1 b2]. unfold PIL.size_eqb. simpl.
  rewrite andb_true_iff, !Nat.eqb_eq. split.
  - intros [-> ->]; reflexivity.
  - intros E; inversion E; auto.
Qed.

Lemma size_eqb_neq (a b : nat * nat) : a <> b -> PIL.size_eqb a b = false.
Proof.
  intros H. destruct (PIL.size_eqb a b) eqn:E; [|reflexivity].
  apply size_eqb_eq in E. contradiction.
Qed.

Lemma mode_eqb_eq (a b : PIL.pil_mode) : PIL.mode_eqb a b = true <-> a = b.
Proof. destruct a, b; simpl; split; intros H; try reflexivity; discriminate. Qed.

Lemma source_pixel_same (m : PIL.pil_mode) (px : PIL.pixel) :
  PIL.source_pixel m m px = px.
Proof. destruct m; reflexivity. Qed.

Lemma source_rows_same (m : PIL.pil_mode) (rows : list (list PIL.pixel)) :
  map (map (PIL.source_pixel m m)) rows = rows.
Proof.
  rewrite <- (map_id rows) at 2. apply map_ext. intros row.
  rewrite <- (map_id row) at 2. apply map_ext. apply source_pixel_same.
Qed.

Lemma pixel_ok_spec (m : PIL.pil_mode) (px : PIL.pixel) :
  PIL.pixel_ok m px = true ->
  length px = PIL.bands m /\
  forall b, (b < PIL.bands m)%nat -> 0 <= nth b px 0 <= 255.
Proof.
  unfold PIL.pixel_ok. rewrite andb_true_iff, Nat.eqb_eq. intros [Hl Hb].
  split; [exact Hl|]. intros b Hlt.
  pose proof (forallb_nth _ px b 0 Hb ltac:(lia)) as H.
  unfold PIL.byte_ok in H. lia.
Qed.

Lemma rows_ok_spec (m : PIL.pil_mode) (sz : nat * nat)
  (rows : list (list PIL.pixel)) :
  PIL.rows_ok m sz rows = true ->
  length rows = snd sz /\
  forall y, (y < snd sz)%nat ->
    length (nth y rows []) = fst sz /\
    forall x, (x < fst sz)%nat ->
      PIL.pixel_ok m (nth x (nth y rows []) []) = true.
Proof.
  unfold PIL.rows_ok. rewrite andb_true_iff, Nat.eqb_eq. intros [Hl Hr].
  split; [exact Hl|]. intros y Hy.
  pose proof (forallb_nth _ rows y [] Hr ltac:(lia)) as H.
  simpl in H. apply andb_true_iff in H. destruct H as [Hw Hp].
  apply Nat.eqb_eq in Hw. split; [exact Hw|].
  intros x Hx. apply forallb_nth; [exact Hp | lia].
Qed.

Lemma zip_rows_nth (src mask : list (list PIL.pixel)) (x y : nat) :
  (y < length src)%nat -> (y < length mask)%nat ->
  (x < length (nth y src []))%nat -> (x < length (nth y mask []))%nat ->
  (x < length (nth y (PIL.zip_rows src mask) []))%nat /\
  nth x (nth y (PIL.zip_rows src mask) []) ([], []) =
    (nth x (nth y src []) [], nth x (nth y mask []) []).
Proof.
  revert mask y. induction src as [|r src IH]; intros [|q mask] [|y];
    simpl; intros Hs Hm Hxs Hxm; try lia.
  - clear IH. revert q x Hxs Hxm.
    induction r as [|p r IHr]; intros [|p' q] [|x]; simpl; intros; try lia.
    + split; [lia | reflexivity].
    + destruct (IHr q x ltac:(lia) ltac:(lia)) as [Hl He].
      split; [lia | exact He].
  - apply IH; lia.
Qed.

Lemma paste_rows_length (f : PIL.pixel -> PIL.pixel * PIL.pixel -> PIL.pixel)
  (dst src mask : list (list PIL.pixel)) :
  length (PIL.paste_rows f dst src mask) = length dst.
Proof. apply overlay_length. Qed.

Lemma paste_rows_row_length
  (f : PIL.pixel -> PIL.pixel * PIL.pixel -> PIL.pixel)
  (dst src mask : list (list PIL.pixel)) (y : nat) :
  length (nth y (PIL.paste_rows f dst src mask) []) = length (nth y dst []).
Proof. apply nth_overlay_rows_length. Qed.

Lemma paste_rows_nth (f : PIL.pixel -> PIL.pixel * PIL.pixel -> PIL.pixel)
  (dst src mask : list (list PIL.pixel)) (x y : nat) :
  (y < length dst)%nat -> (y < length src)%nat -> (y < length mask)%nat ->
  (x < length (nth y dst []))%nat -> (x < length (nth y src []))%nat ->
  (x < length (nth y mask []))%nat ->
  nth x (nth y (PIL.paste_rows f dst src mask) []) [] =
    f (nth x (nth y dst []) [])
      (nth x (nth y src []) [], nth x (nth y mask []) []).
Proof.
  intros Hd Hs Hm Hxd Hxs Hxm.
  destruct (zip_rows_nth src mask x y Hs Hm Hxs Hxm) as [Hl He].
  unfold PIL.paste_rows.
  assert (Hz : (y < length (PIL.zip_rows src mask))%nat).
  { destruct (Nat.lt_ge_cases y (length (PIL.zip_rows src mask))) as [H|H];
      [exact H|].
    rewrite (nth_overflow _ _ H) in Hl. simpl in Hl. lia. }
  rewrite (nth_overlay (overlay f) dst _ y [] []) by assumption.
  rewrite (nth_overlay f _ _ x [] ([], [])) by assumption.
  rewrite He. reflexivity.
Qed.

Section PillowFacts.

Variable resample : PIL.Image -> nat * nat -> result (list (list PIL.pixel)).
Variable convert_pixels :
  PIL.Image -> PIL.pil_mode -> result (list (list PIL.pixel)).

Lemma resize_size_mode (im r : PIL.Image) (sz : nat * nat) :
  PIL.resize resample im sz = Ok r ->
  PIL.size r = sz /\ PIL.mode r = PIL.mode im.
Proof.
  unfold PIL.resize.
  destruct (PIL.size_eqb (PIL.size im) sz) eqn:E.
  - intros H; inversion H; subst. apply size_eqb_eq in E. auto.
  - destruct (_ || _)%bool; [discriminate|].
    destruct (resample im sz); simpl; [|discriminate].
    intros H; inversion H; subst; simpl; auto.
Qed.

Lemma resize_well_formed (im r : PIL.Image) (sz : nat * nat) :
  resample_sound resample -> PIL.well_formed im = true ->
  PIL.resize resample im sz = Ok r -> PIL.well_formed r = true.
Proof.
  intros Hs Hw. unfold PIL.resize.
  destruct (PIL.size_eqb (PIL.size im) sz) eqn:E.
  - intros H; inversion H; subst; exact Hw.
  - destruct (_ || _)%bool; [discriminate|].
    destruct (resample im sz) eqn:R; simpl; [|discriminate].
    intros H; inversion H; subst. unfold PIL.well_formed; simpl.
    eapply Hs; eauto.
Qed.

Lemma ImagingPaste_mask_size (imOut imIn imMask : PIL.Image) :
  PIL.size imMask <> PIL.size imIn ->
  PIL.ImagingPaste imOut imIn imMask = Raise "images do not match".
Proof.
  intros Hne. unfold PIL.ImagingPaste.
  destruct (negb (Nat.eqb _ _)); [reflexivity|].
  rewrite (size_eqb_neq _ _ Hne). reflexivity.
Qed.

(** The source that [paste] hands to the C layer has the size of the
    pasted image, so a mask of another size is always refused. *)
Lemma paste_mask_size (self im mask : PIL.Image) :
  PIL.size mask <> PIL.size im ->
  exists e, PIL.paste convert_pixels self im mask = Raise e.
Proof.
  intros Hne. unfold PIL.paste.
  destruct (PIL.mode_eqb (PIL.mode self) (PIL.mode im)); simpl.
  - eexists. apply ImagingPaste_mask_size. exact Hne.
  - destruct (_ && _)%bool; simpl.
    + eexists. apply ImagingPaste_mask_size. exact Hne.
    + unfold PIL.convert.
      destruct (convert_pixels im (PIL.mode self)); simpl.
      * eexists. apply ImagingPaste_mask_size. exact Hne.
      * eexists; reflexivity.
Qed.

(** Pasting an image of the destination's mode through an L mask of the
    image's size. *)
Lemma paste_same_mode_L (self im mask : PIL.Image) :
  PIL.mode im = PIL.mode self -> PIL.mode mask = PIL.M_L ->
  PIL.size mask = PIL.size im ->
  PIL.paste convert_pixels self im mask =
    Ok {| PIL.mode := PIL.mode self; PIL.size := PIL.size self;
          PIL.pixels := PIL.paste_rows PIL.paste_mask_L (PIL.pixels self)
                          (PIL.pixels im) (PIL.pixels mask) |}.
Proof.
  intros Hm Hl Hs. unfold PIL.paste.
  rewrite Hm. rewrite (proj2 (mode_eqb_eq _ _) eq_refl). simpl.
  unfold PIL.ImagingPaste.
  rewrite Hm, Nat.eqb_refl. simpl.
  rewrite Hs, (proj2 (size_eqb_eq _ _) eq_refl). simpl.
  rewrite Hl, source_rows_same. reflexivity.
Qed.

Lemma ImagingPaste_shape (imOut imIn imMask out : PIL.Image) :
  PIL.ImagingPaste imOut imIn imMask = Ok out ->
  PIL.mode out = PIL.mode imOut /\ PIL.size out = PIL.size imOut /\
  PIL.size imMask = PIL.size imIn.
Proof.
  unfold PIL.ImagingPaste.
  destruct (negb (Nat.eqb _ _)); [discriminate|].
  destruct (PIL.size_eqb (PIL.size imMask) (PIL.size imIn)) eqn:E;
    [|discriminate].
  apply size_eqb_eq in E. simpl.
  destruct (PIL.mode imMask); try discriminate;
    intros H; inversion H; subst; simpl; auto.
Qed.

Lemma ImagingPaste_ok (imOut imIn imMask : PIL.Image) :
  PIL.pixelsize (PIL.mode imOut) = PIL.pixelsize (PIL.mode imIn) ->
  PIL.size imMask = PIL.size imIn ->
  transparency_mask (PIL.mode imMask) = true ->
  exists out, PIL.ImagingPaste imOut imIn imMask = Ok out.
Proof.
  intros Hp Hs Hm. unfold PIL.ImagingPaste.
  rewrite Hp, Nat.eqb_refl. simpl.
  rewrite Hs, (proj2 (size_eqb_eq _ _) eq_refl). simpl.
  destruct (PIL.mode imMask); try discriminate; eexists; reflexivity.
Qed.

(** The source that [paste] hands to the C layer: the image itself or its
    conversion, in both cases of the image's size. *)
Lemma paste_shape (self im mask out : PIL.Image) :
  PIL.paste convert_pixels self im mask = Ok out ->
  PIL.mode out = PIL.mode self /\ PIL.size out = PIL.size self /\
  PIL.size mask = PIL.size im.
Proof.
  unfold PIL.paste.
  destruct (PIL.mode_eqb (PIL.mode self) (PIL.mode im)); simpl.
  - apply ImagingPaste_shape.
  - destruct (_ && _)%bool; simpl.
    + apply ImagingPaste_shape.
    + unfold PIL.convert.
      destruct (convert_pixels im (PIL.mode self)); simpl; [|discriminate].
      intros H. apply ImagingPaste_shape in H. simpl in H. exact H.
Qed.

Lemma paste_direct (self im mask : PIL.Image) :
  pasted_directly (PIL.mode self) (PIL.mode im) = true ->
  PIL.paste convert_pixels self im mask = PIL.ImagingPaste self im mask.
Proof.
  unfold pasted_directly, PIL.paste. intros H.
  destruct (PIL.mode_eqb (PIL.mode self) (PIL.mode im)); simpl in *.
  - reflexivity.
  - rewrite H. reflexivity.
Qed.

Lemma paste_converted (self im mask : PIL.Image) :
  pasted_directly (PIL.mode self) (PIL.mode im) = false ->
  PIL.paste convert_pixels self im mask =
    match convert_pixels im (PIL.mode self) with
    | Ok rows =>
        PIL.ImagingPaste self
          {| PIL.mode := PIL.mode self; PIL.size := PIL.size im;
             PIL.pixels := rows |} mask
    | Raise e => Raise e
    end.
Proof.
  unfold pasted_directly, PIL.paste, PIL.convert. intros H.
  destruct (PIL.mode_eqb (PIL.mode self) (PIL.mode im)); simpl in *;
    [discriminate|].
  rewrite H. destruct (convert_pixels im (PIL.mode self)); reflexivity.
Qed.

Lemma pasted_directly_pixelsize (dst src : PIL.pil_mode) :
  pasted_directly dst src = true -> PIL.pixelsize dst = PIL.pixelsize src.
Proof. destruct dst, src; simpl; intros H; try reflexivity; discriminate. Qed.

End PillowFacts.

(** ** Rasters *)

Lemma last_singleton (px : PIL.pixel) :
  length px = 1%nat -> PIL.matte px = nth 0 px 0.
Proof.
  destruct px as [|v [|v' px]]; simpl; intros H; try discriminate.
  reflexivity.
Qed.

Lemma raster_ext (r1 r2 : list (list PIL.pixel)) (w h n : nat) :
  length r1 = h -> length r2 = h ->
  (forall y, (y < h)%nat ->
     length (nth y r1 []) = w /\ length (nth y r2 []) = w) ->
  (forall x y, (x < w)%nat -> (y < h)%nat ->
     length (nth x (nth y r1 []) []) = n /\
     length (nth x (nth y r2 []) []) = n) ->
  (forall x y b, (x < w)%nat -> (y < h)%nat -> (b < n)%nat ->
     nth b (nth x (nth y r1 []) []) 0 = nth b (nth x (nth y r2 []) []) 0) ->
  r1 = r2.
Proof.
  intros H1 H2 Hrow Hpx Hband.
  apply (nth_ext r1 r2 [] []); [congruence|].
  intros y Hy. rewrite H1 in Hy.
  destruct (Hrow y Hy) as [Hw1 Hw2].
  apply (nth_ext _ _ [] []);
    [transitivity w; [exact Hw1 | symmetry; exact Hw2]|].
  intros x Hx. rewrite Hw1 in Hx.
  destruct (Hpx x y Hx Hy) as [Hn1 Hn2].
  apply (nth_ext _ _ 0 0);
    [transitivity n; [exact Hn1 | symmetry; exact Hn2]|].
  intros b Hb. rewrite Hn1 in Hb.
  apply Hband; assumption.
Qed.

(** The raster that [paste_mask_L] writes when destination, source and mask
    have one size and destination and source one mode: every band of every
    pixel is [BLEND8] of the mask value, the destination and the source. *)
Lemma paste_L_band (self im mask : PIL.Image) (x y b : nat) :
  PIL.well_formed self = true -> PIL.well_formed im = true ->
  PIL.well_formed mask = true ->
  PIL.mode im = PIL.mode self -> PIL.mode mask = PIL.M_L ->
  PIL.size im = PIL.size self -> PIL.size mask = PIL.size self ->
  (x < PIL.width self)%nat -> (y < PIL.height self)%nat ->
  (b < PIL.bands (PIL.mode self))%nat ->
  length (nth x (nth y (PIL.paste_rows PIL.paste_mask_L (PIL.pixels self)
                          (PIL.pixels im) (PIL.pixels mask)) []) [])
    = PIL.bands (PIL.mode self) /\
  nth b (nth x (nth y (PIL.paste_rows PIL.paste_mask_L (PIL.pixels self)
                         (PIL.pixels im) (PIL.pixels mask)) []) []) 0 =
    PIL.BLEND8 (PIL.getband mask x y 0) (PIL.getband self x y b)
               (PIL.getband im x y b).
Proof.
  unfold PIL.well_formed, PIL.width, PIL.height.
  intros Ws Wi Wm Mi Mm Si Sm Hx Hy Hb.
  rewrite Mi, Si in Wi. rewrite Mm, Sm in Wm.
  destruct (rows_ok_spec _ _ _ Ws) as [Ls Rs].
  destruct (rows_ok_spec _ _ _ Wi) as [Li Ri].
  destruct (rows_ok_spec _ _ _ Wm) as [Lm Rm].
  destruct (Rs y Hy) as [Ws' Ps]. destruct (Ri y Hy) as [Wi' Pi].
  destruct (Rm y Hy) as [Wm' Pm].
  destruct (pixel_ok_spec _ _ (Ps x Hx)) as [Bs Vs].
  destruct (pixel_ok_spec _ _ (Pi x Hx)) as [Bi Vi].
  destruct (pixel_ok_spec _ _ (Pm x Hx)) as [Bm Vm].
  rewrite paste_rows_nth by lia.
  unfold PIL.paste_mask_L; simpl fst; simpl snd.
  split.
  - rewrite overlay_length. exact Bs.
  - rewrite (nth_overlay _ _ _ b 0 0) by lia.
    rewrite (last_singleton _ Bm). reflexivity.
Qed.

Lemma image_ext (a b : PIL.Image) :
  PIL.mode a = PIL.mode b -> PIL.size a = PIL.size b ->
  PIL.pixels a = PIL.pixels b -> a = b.
Proof. destruct a, b; simpl; intros; subst; reflexivity. Qed.

Lemma pixel_ok_blank (m : PIL.pil_mode) :
  PIL.pixel_ok m (repeat 0 (PIL.bands m)) = true.
Proof. destruct m; reflexivity. Qed.

Lemma well_formed_lookup (im : PIL.Image) (i j : nat) :
  PIL.well_formed im = true ->
  PIL.pixel_ok (PIL.mode im)
    (nth i (nth j (PIL.pixels im) []) (repeat 0 (PIL.bands (PIL.mode im))))
  = true.
Proof.
  intros W. destruct (rows_ok_spec _ _ _ W) as [L R].
  destruct (Nat.lt_ge_cases j (snd (PIL.size im))) as [Hj|Hj].
  - destruct (R j Hj) as [Lw P].
    destruct (Nat.lt_ge_cases i (fst (PIL.size im))) as [Hi|Hi].
    + rewrite (nth_indep (nth j (PIL.pixels im) []) _ []) by lia.
      apply P; exact Hi.
    + rewrite nth_overflow by lia. apply pixel_ok_blank.
  - rewrite (nth_overflow (PIL.pixels im)) by lia.
    destruct i; simpl; apply pixel_ok_blank.
Qed.

Lemma nearest_rows_sound : resample_sound Demo.nearest_rows.
Proof.
  intros im sz rows W H. unfold Demo.nearest_rows in H.
  inversion H; subst; clear H.
  unfold PIL.rows_ok. rewrite length_map, length_seq, Nat.eqb_refl. simpl.
  apply forallb_forall. intros row Hrow.
  apply in_map_iff in Hrow. destruct Hrow as [y [<- _]].
  rewrite length_map, length_seq, Nat.eqb_refl. simpl.
  apply forallb_forall. intros px Hpx.
  apply in_map_iff in Hpx. destruct Hpx as [x [<- _]].
  apply well_formed_lookup. exact W.
Qed.

Lemma no_convert_sound : convert_sound Demo.no_convert.
Proof. intros im m rows _ H. discriminate H. Qed.

Lemma luma_byte (px : PIL.pixel) :
  PIL.pixel_ok PIL.M_RGB px = true -> PIL.byte_ok (Demo.luma px) = true.
Proof.
  intros H. destruct (pixel_ok_spec _ _ H) as [_ B].
  pose proof (B 0%nat ltac:(simpl; lia)) as B0.
  pose proof (B 1%nat ltac:(simpl; lia)) as B1.
  pose proof (B 2%nat ltac:(simpl; lia)) as B2.
  unfold Demo.luma, PIL.byte_ok. rewrite Z.shiftr_div_pow2 by lia.
  change (2 ^ 16) with 65536.
  apply andb_true_iff. split.
  - apply Z.leb_le. apply Z.div_pos; lia.
  - apply Z.ltb_lt. apply Z.div_lt_upper_bound; lia.
Qed.

Lemma luma_convert_sound : convert_sound Demo.luma_convert.
Proof.
  intros im m rows W H. unfold Demo.luma_convert in H.
  unfold PIL.well_formed, PIL.rows_ok in W.
  destruct (PIL.mode im); try discriminate H.
  destruct m; try discriminate H.
  injection H as <-.
  apply andb_true_iff in W. destruct W as [Wl Wr].
  unfold PIL.rows_ok. apply andb_true_iff. split.
  - rewrite length_map. exact Wl.
  - rewrite forallb_forall in *. intros r Hin.
    apply in_map_iff in Hin. destruct Hin as (row & <- & Hrow).
    specialize (Wr row Hrow). apply andb_true_iff in Wr.
    destruct Wr as [Wrl Wrp].
    apply andb_true_iff. split; [rewrite length_map; exact Wrl|].
    rewrite forallb_forall in *. intros q Hq.
    apply in_map_iff in Hq. destruct Hq as (px & <- & Hpx).
    unfold PIL.pixel_ok. simpl. rewrite (luma_byte px (Wrp px Hpx)).
    reflexivity.
Qed.

(** ** The compositing step (lines 77-80) *)

Section Compositor.

Variable resample : PIL.Image -> nat * nat -> result (list (list PIL.pixel)).
Variable convert_pixels :
  PIL.Image -> PIL.pil_mode -> result (list (list PIL.pixel)).


Lemma source_pixel_ok (dst src : PIL.pil_mode) (px : PIL.pixel) :
  pasted_directly dst src = true ->
  PIL.pixel_ok src px = true ->
  PIL.pixel_ok dst (PIL.source_pixel dst src px) = true.
Proof.
  intros Hd Hp.
  destruct dst, src; try discriminate Hd; try exact Hp.
  - (* RGB from LA *)
    destruct px as [|l [|a [|c px]]]; try discriminate Hp.
    unfold PIL.pixel_ok in *. simpl in *.
    destruct (PIL.byte_ok l); [reflexivity | discriminate].
  - (* RGB from RGBA *)
    destruct px as [|r [|g [|b [|a [|c px]]]]]; try discriminate Hp.
    unfold PIL.pixel_ok in *. simpl in *.
    destruct (PIL.byte_ok r), (PIL.byte_ok g), (PIL.byte_ok b);
      try reflexivity; discriminate.
Qed.

Lemma rows_ok_map (m m' : PIL.pil_mode) (sz : nat * nat)
  (f : PIL.pixel -> PIL.pixel) (rows : list (list PIL.pixel)) :
  (forall px, PIL.pixel_ok m px = true -> PIL.pixel_ok m' (f px) = true) ->
  PIL.rows_ok m sz rows = true ->
  PIL.rows_ok m' sz (map (map f) rows) = true.
Proof.
  intros Hf. unfold PIL.rows_ok. intros W.
  apply andb_true_iff in W. destruct W as [Wl Wr].
  apply andb_true_iff. split; [rewrite length_map; exact Wl|].
  rewrite forallb_forall in *. intros r Hin.
  apply in_map_iff in Hin. destruct Hin as (row & <- & Hrow).
  specialize (Wr row Hrow). apply andb_true_iff in Wr.
  destruct Wr as [Wrl Wrp].
  apply andb_true_iff. split; [rewrite length_map; exact Wrl|].
  rewrite forallb_forall in *. intros q Hq.
  apply in_map_iff in Hq. destruct Hq as (px & <- & Hpx).
  apply Hf. apply Wrp. exact Hpx.
Qed.

(** The C layer reads the pasted image through the destination's band
    layout. *)
Lemma ImagingPaste_through (imOut imIn imMask : PIL.Image) :
  PIL.pixelsize (PIL.mode imOut) = PIL.pixelsize (PIL.mode imIn) ->
  PIL.ImagingPaste imOut imIn imMask =
  PIL.ImagingPaste imOut
    {| PIL.mode := PIL.mode imOut; PIL.size := PIL.size imIn;
       PIL.pixels := map (map (PIL.source_pixel (PIL.mode imOut)
                                 (PIL.mode imIn)))
                         (PIL.pixels imIn) |} imMask.
Proof.
  intros H. unfold PIL.ImagingPaste. simpl.
  rewrite H, Nat.eqb_refl, source_rows_same. reflexivity.
Qed.

(** The composite of a replacement that has the original's mode. *)
Lemma composite_same_mode
  (original replacement mask resized : PIL.Image) :
  resample_sound resample ->
  PIL.well_formed original = true ->
  PIL.well_formed replacement = true ->
  PIL.well_formed mask = true ->
  PIL.mode replacement = PIL.mode original ->
  PIL.mode mask = PIL.M_L ->
  PIL.size mask = PIL.size original ->
  PIL.resize resample replacement (PIL.size original) = Ok resized ->
  exists out,
    replace_region resample convert_pixels original replacement mask
      = Ok out /\
    PIL.size resized = PIL.size original /\
    PIL.size out = PIL.size original /\
    PIL.mode out = PIL.mode original /\
    (forall x y b,
       (x < PIL.width original)%nat -> (y < PIL.height original)%nat ->
       (b < PIL.bands (PIL.mode original))%nat ->
       PIL.getband out x y b =
         PIL.BLEND8 (PIL.getband mask x y 0) (PIL.getband original x y b)
                    (PIL.getband resized x y b) /\
       (PIL.getband mask x y 0 = 255 ->
          PIL.getband out x y b = PIL.getband resized x y b) /\
       (PIL.getband mask x y 0 = 0 ->
          PIL.getband out x y b = PIL.getband original x y b) /\
       Z.abs (255 * PIL.getband out x y b
              - (255 * PIL.getband original x y b
                 + (PIL.getband resized x y b - PIL.getband original x y b)
                   * PIL.getband mask x y 0)) <= 127) /\
    (uniform_mask 0 mask -> out = original) /\
    (uniform_mask 255 mask -> out = resized).
Proof.
  intros Hsound Wo Wr Wm Mr Mm Sm Hres.
  destruct (resize_size_mode resample _ _ _ Hres) as [Sr Mr'].
  pose proof (resize_well_formed resample _ _ _ Hsound Wr Hres) as Wz.
  assert (Mz : PIL.mode resized = PIL.mode original) by congruence.
  assert (Smz : PIL.size mask = PIL.size resized) by congruence.
  unfold replace_region. rewrite Hres. cbn [bind].
  unfold PIL.composite.
  rewrite (paste_same_mode_L convert_pixels original resized mask Mz Mm Smz).
  eexists. split; [reflexivity|].
  split; [exact Sr|]. split; [reflexivity|]. split; [reflexivity|].
  (* the value of every band *)
  assert (Hband : forall x y b,
    (x < PIL.width original)%nat -> (y < PIL.height original)%nat ->
    (b < PIL.bands (PIL.mode original))%nat ->
    length (nth x (nth y (PIL.paste_rows PIL.paste_mask_L
              (PIL.pixels original) (PIL.pixels resized) (PIL.pixels mask))
              []) []) = PIL.bands (PIL.mode original) /\
    nth b (nth x (nth y (PIL.paste_rows PIL.paste_mask_L
              (PIL.pixels original) (PIL.pixels resized) (PIL.pixels mask))
              []) []) 0 =
      PIL.BLEND8 (PIL.getband mask x y 0) (PIL.getband original x y b)
                 (PIL.getband resized x y b)).
  { intros x y b Hx Hy Hb.
    apply paste_L_band; assumption. }
  (* the ranges of the operands *)
  assert (Hrange : forall x y b,
    (x < PIL.width original)%nat -> (y < PIL.height original)%nat ->
    (b < PIL.bands (PIL.mode original))%nat ->
    0 <= PIL.getband mask x y 0 <= 255 /\
    0 <= PIL.getband original x y b <= 255 /\
    0 <= PIL.getband resized x y b <= 255).
  { intros x y b Hx Hy Hb. unfold PIL.width, PIL.height in *.
    destruct (rows_ok_spec _ _ _ Wo) as [_ Ro].
    destruct (rows_ok_spec _ _ _ Wz) as [_ Rz].
    destruct (rows_ok_spec _ _ _ Wm) as [_ Rm].
    rewrite Sr in Rz. rewrite Sm in Rm.
    destruct (Ro y Hy) as [_ Po]. destruct (Rz y Hy) as [_ Pz].
    destruct (Rm y Hy) as [_ Pm].
    destruct (pixel_ok_spec _ _ (Po x Hx)) as [_ Vo].
    destruct (pixel_ok_spec _ _ (Pz x Hx)) as [_ Vz].
    destruct (pixel_ok_spec _ _ (Pm x Hx)) as [_ Vm].
    rewrite Mz in Vz. rewrite Mm in Vm.
    unfold PIL.getband. repeat split;
      try apply Vo; try apply Vz; try apply Vm; simpl; lia. }
  split; [|split].
  - intros x y b Hx Hy Hb.
    destruct (Hband x y b Hx Hy Hb) as [_ E].
    destruct (Hrange x y b Hx Hy Hb) as [Rm [Ro Rz]].
    match goal with
    | |- PIL.getband ?o x y b = _ /\ _ =>
        assert (Eo : PIL.getband o x y b =
                     PIL.BLEND8 (PIL.getband mask x y 0)
                       (PIL.getband original x y b)
                       (PIL.getband resized x y b)) by exact E
    end.
    rewrite Eo. split; [reflexivity|]. split; [|split].
    + intros ->. apply BLEND8_full; exact Rz.
    + intros ->. apply BLEND8_zero; exact Ro.
    + apply BLEND8_interpolates; assumption.
  - intros Hzero. apply image_ext; try reflexivity. simpl.
    destruct (rows_ok_spec _ _ _ Wo) as [Lo Ro].
    apply (raster_ext _ _ (fst (PIL.size original)) (snd (PIL.size original))
             (PIL.bands (PIL.mode original))).
    + rewrite paste_rows_length. exact Lo.
    + exact Lo.
    + intros y Hy. rewrite paste_rows_row_length.
      destruct (Ro y Hy) as [Lw _]. auto.
    + intros x y Hx Hy. destruct (Ro y Hy) as [_ Po].
      destruct (pixel_ok_spec _ _ (Po x Hx)) as [Lp _].
      destruct (Hband x y 0%nat Hx Hy
                  ltac:(destruct (PIL.mode original); simpl; lia))
        as [Lb _].
      auto.
    + intros x y b Hx Hy Hb.
      destruct (Hband x y b Hx Hy Hb) as [_ E]. rewrite E.
      rewrite (Hzero x y)
        by (unfold PIL.width, PIL.height; rewrite Sm; assumption).
      apply BLEND8_zero.
      apply (Hrange x y b Hx Hy Hb).
  - intros Hfull. apply image_ext; simpl; try congruence.
    destruct (rows_ok_spec _ _ _ Wo) as [Lo Ro].
    destruct (rows_ok_spec _ _ _ Wz) as [Lz Rz].
    rewrite Sr in Lz, Rz. rewrite Mz in Rz.
    apply (raster_ext _ _ (fst (PIL.size original)) (snd (PIL.size original))
             (PIL.bands (PIL.mode original))).
    + rewrite paste_rows_length. exact Lo.
    + exact Lz.
    + intros y Hy. rewrite paste_rows_row_length.
      destruct (Ro y Hy) as [Lw _]. destruct (Rz y Hy) as [Lw' _]. auto.
    + intros x y Hx Hy. destruct (Rz y Hy) as [_ Pz].
      destruct (pixel_ok_spec _ _ (Pz x Hx)) as [Lp _].
      destruct (Hband x y 0%nat Hx Hy
                  ltac:(destruct (PIL.mode original); simpl; lia))
        as [Lb _].
      auto.
    + intros x y b Hx Hy Hb.
      destruct (Hband x y b Hx Hy Hb) as [_ E]. rewrite E.
      rewrite (Hfull x y)
        by (unfold PIL.width, PIL.height; rewrite Sm; assumption).
      apply BLEND8_full.
      apply (Hrange x y b Hx Hy Hb).
Qed.

(** C1.  [replace_region original replacement mask] (lines 77-80) first
    resizes the replacement to the original's (width, height) and then
    blends per pixel and band through the mask.  For a replacement of the
    original's mode the output is the resized replacement where the mask
    is 255, the original where the mask is 0, and in between the linear
    interpolation [original + (replacement - original) * mask / 255]
    rounded to the nearest integer; with an all-zero mask the output is
    the original, with an all-255 mask it is the resized replacement.  A
    replacement of another mode is blended in the same way as [paste]
    takes it, that is converted to the original's mode, or read through
    the original's bands where an RGB original takes an RGBA or LA image
    as it is: at mask 255 the output is that image's pixel, not the pixel
    of the resized replacement. *)
Theorem C1_composite_blends
  (original replacement mask resized : PIL.Image) :
  resample_sound resample ->
  PIL.well_formed original = true ->
  PIL.well_formed replacement = true ->
  PIL.well_formed mask = true ->
  PIL.mode mask = PIL.M_L ->
  PIL.size mask = PIL.size original ->
  PIL.resize resample replacement (PIL.size original) = Ok resized ->
  (PIL.mode replacement = PIL.mode original ->
   exists out,
     replace_region resample convert_pixels original replacement mask
       = Ok out /\
     PIL.size resized = PIL.size original /\
     PIL.size out = PIL.size original /\
     PIL.mode out = PIL.mode original /\
     (forall x y b,
        (x < PIL.width original)%nat -> (y < PIL.height original)%nat ->
        (b < PIL.bands (PIL.mode original))%nat ->
        PIL.getband out x y b =
          PIL.BLEND8 (PIL.getband mask x y 0) (PIL.getband original x y b)
                     (PIL.getband resized x y b) /\
        (PIL.getband mask x y 0 = 255 ->
           PIL.getband out x y b = PIL.getband resized x y b) /\
        (PIL.getband mask x y 0 = 0 ->
           PIL.getband out x y b = PIL.getband original x y b) /\
        Z.abs (255 * PIL.getband out x y b
               - (255 * PIL.getband original x y b
                  + (PIL.getband resized x y b - PIL.getband original x y b)
                    * PIL.getband mask x y 0)) <= 127) /\
     (uniform_mask 0 mask -> out = original) /\
     (uniform_mask 255 mask -> out = resized)) /\
  (forall src,
     convert_sound convert_pixels ->
     pasted_source convert_pixels original resized = Ok src ->
     (PIL.mode replacement = PIL.mode original -> src = resized) /\
     exists out,
       replace_region resample convert_pixels original replacement mask
         = Ok out /\
       PIL.size out = PIL.size original /\
       PIL.mode out = PIL.mode original /\
       (forall x y b,
          (x < PIL.width original)%nat -> (y < PIL.height original)%nat ->
          (b < PIL.bands (PIL.mode original))%nat ->
          PIL.getband out x y b =
            PIL.BLEND8 (PIL.getband mask x y 0) (PIL.getband original x y b)
                       (PIL.getband src x y b)) /\
       (uniform_mask 0 mask -> out = original) /\
       (uniform_mask 255 mask -> out = src)).
Proof.
  intros Hsound Wo Wr Wm Mm Sm Hres. split.
  - intros Mr.
    exact (composite_same_mode original replacement mask resized
             Hsound Wo Wr Wm Mr Mm Sm Hres).
  - intros src Hcs Hsrc.
    destruct (resize_size_mode resample _ _ _ Hres) as [Sr Mr].
    pose proof (resize_well_formed resample _ _ _ Hsound Wr Hres) as Wz.
    assert (Hsame : forall im,
      PIL.mode im = PIL.mode original -> PIL.size im = PIL.size original ->
      PIL.resize resample im (PIL.size original) = Ok im).
    { intros im _ Si. unfold PIL.resize. rewrite Si.
      rewrite (proj2 (size_eqb_eq _ _) eq_refl). reflexivity. }
    assert (Hblend : forall im,
      PIL.well_formed im = true ->
      PIL.mode im = PIL.mode original -> PIL.size im = PIL.size original ->
      PIL.paste convert_pixels original resized mask
      = PIL.ImagingPaste original im mask ->
      exists out,
        replace_region resample convert_pixels original replacement mask
          = Ok out /\
        PIL.size out = PIL.size original /\
        PIL.mode out = PIL.mode original /\
        (forall x y b,
           (x < PIL.width original)%nat -> (y < PIL.height original)%nat ->
           (b < PIL.bands (PIL.mode original))%nat ->
           PIL.getband out x y b =
             PIL.BLEND8 (PIL.getband mask x y 0)
                        (PIL.getband original x y b)
                        (PIL.getband im x y b)) /\
        (uniform_mask 0 mask -> out = original) /\
        (uniform_mask 255 mask -> out = im)).
    { intros im Wi Mi Si Hpaste.
      destruct (composite_same_mode original im mask im
                  Hsound Wo Wi Wm Mi Mm Sm (Hsame im Mi Si))
        as (out & Hreg & _ & So & Mo & Hpix & H0 & H255).
      exists out. split; [|split; [exact So|split; [exact Mo|split; [|auto]]]].
      - rewrite <- Hreg. unfold replace_region.
        rewrite Hres, (Hsame im Mi Si). cbn [bind]. unfold PIL.composite.
        rewrite Hpaste. symmetry. apply paste_direct.
        unfold pasted_directly. rewrite Mi.
        rewrite (proj2 (mode_eqb_eq _ _) eq_refl). reflexivity.
      - intros x y b Hx Hy Hb. apply (Hpix x y b Hx Hy Hb). }
    unfold pasted_source in Hsrc.
    destruct (pasted_directly (PIL.mode original) (PIL.mode resized)) eqn:Hdir.
    + injection Hsrc as <-. split.
      * intros Me. rewrite <- Mr in Me. rewrite <- Me, source_rows_same.
        destruct resized; reflexivity.
      * apply Hblend; [|reflexivity|exact Sr|].
        -- unfold PIL.well_formed. simpl.
           apply (rows_ok_map (PIL.mode resized)); [|exact Wz].
           intros px. apply source_pixel_ok. exact Hdir.
        -- rewrite (paste_direct convert_pixels _ _ _ Hdir).
           apply ImagingPaste_through.
           apply pasted_directly_pixelsize. exact Hdir.
    + split.
      * intros Me. rewrite <- Mr in Me. unfold pasted_directly in Hdir.
        rewrite Me in Hdir.
        rewrite (proj2 (mode_eqb_eq _ _) eq_refl) in Hdir. discriminate.
      * unfold PIL.convert in Hsrc.
        destruct (convert_pixels resized (PIL.mode original)) as [rows|e]
          eqn:Hrows; simpl in Hsrc; [|discriminate].
        injection Hsrc as <-.
        apply Hblend; [|reflexivity|exact Sr|].
        -- exact (Hcs resized (PIL.mode original) rows Wz Hrows).
        -- rewrite (paste_converted convert_pixels _ _ _ Hdir), Hrows.
           reflexivity.
Qed.

End Compositor.

(** ** Computations that ignore the state *)

Lemma state_blind_ret {W A : Type} (a : A) : state_blind (@ret W A a).
Proof. intros w1 w2; reflexivity. Qed.

Lemma state_blind_lift {W A : Type} (r : result A) : state_blind (@lift W A r).
Proof. intros w1 w2; reflexivity. Qed.

Lemma state_blind_bindM {W A B : Type} (c : M W A) (k : A -> M W B) :
  state_blind c -> (forall a, state_blind (k a)) -> state_blind (bindM c k).
Proof.
  intros Hc Hk w1 w2. unfold bindM.
  pose proof (Hc w1 w2) as E.
  destruct (c w1) as [[a|e] v1], (c w2) as [[a'|e'] v2]; simpl in E;
    try discriminate; inversion E; subst.
  - apply Hk.
  - reflexivity.
Qed.

Lemma state_blind_try_except {W A : Type} (c : M W A)
  (h : string -> M W A) :
  state_blind c -> (forall e, state_blind (h e)) ->
  state_blind (try_except c h).
Proof.
  intros Hc Hh w1 w2. unfold try_except.
  pose proof (Hc w1 w2) as E.
  destruct (c w1) as [[a|e] v1], (c w2) as [[a'|e'] v2]; simpl in E;
    try discriminate; inversion E; subst.
  - reflexivity.
  - apply Hh.
Qed.

(** ** Construction (lines 8-18) *)

Lemma init_returns {SAM world : Type} (load : string -> M world SAM)
  (w : world) :
  exists self w', init load w = (Ok self, w').
Proof.
  unfold init, try_except, bindM, ret.
  destruct (load "sam2.1_t.pt" w) as [[m|e] w']; eauto.
Qed.

Lemma init_without_weights {SAM world : Type} (load : string -> M world SAM)
  (w w' : world) (e : string) :
  load "sam2.1_t.pt" w = (Raise e, w') ->
  exists self, init load w = (Ok self, w') /\ model_unavailable self.
Proof.
  intros H. unfold init, try_except, bindM, ret. rewrite H.
  eexists. split; [reflexivity|]. left; reflexivity.
Qed.

(** ** The pipeline (lines 20-86) *)

Lemma severity_error (e : string) : severity_of (error_message e) = SevError.
Proof. reflexivity. Qed.

Section Pipeline.

Variable resample : PIL.Image -> nat * nat -> result (list (list PIL.pixel)).
Variable convert_pixels :
  PIL.Image -> PIL.pil_mode -> result (list (list PIL.pixel)).
Variable findContours : Np.ndarray -> result (list Cv2.contour).
Variable moments : Cv2.contour -> Cv2.Moments.
Variable SAM : Type.
Variable world : Type.
Variable predict : SAM -> PIL.Image -> list (list point) -> M world Np.ndarray.

Local Abbreviation run :=
  (process_segmentation resample convert_pixels findContours moments predict).
Local Abbreviation body :=
  (try_body resample convert_pixels findContours moments predict).
Local Abbreviation points_in := (extract_points findContours moments).
Local Abbreviation region := (replace_region resample convert_pixels).

Lemma run_missing (self : ImageSegmentationApp SAM) (ie : EditorValue)
  (repl : option PIL.Image) (w : world) :
  background ie = None \/ repl = None ->
  run self ie repl w = (Ok (Failure upload_message), w).
Proof.
  unfold process_segmentation, bindM, lift. simpl. intros [H | H]; rewrite H.
  - reflexivity.
  - destruct (background ie); reflexivity.
Qed.

(** Line 30 on any argument: what the subscript raises leaves the
    function; otherwise the item decides. *)
Lemma run_raises (self : ImageSegmentationApp SAM) (a : EditorArg)
  (repl : option PIL.Image) (w : world) (e : string) :
  getitem_background a = Raise e -> run self a repl w = (Raise e, w).
Proof.
  intros H. unfold process_segmentation, bindM, lift. rewrite H. reflexivity.
Qed.

Lemma run_item (self : ImageSegmentationApp SAM) (a : EditorArg)
  (item repl : option PIL.Image) (w : world) :
  getitem_background a = Ok item ->
  run self a repl w =
    match item, repl with
    | Some original, Some replacement =>
        match body self a original replacement w with
        | (Ok o, w') => (Ok o, w')
        | (Raise e, w') => (Ok (Failure (error_message e)), w')
        end
    | _, _ => (Ok (Failure upload_message), w)
    end.
Proof.
  intros H. unfold process_segmentation, bindM, lift, try_except.
  rewrite H. destruct item, repl; reflexivity.
Qed.

Lemma run_try (self : ImageSegmentationApp SAM) (ie : EditorValue)
  (original replacement : PIL.Image) (w : world) :
  background ie = Some original ->
  run self ie (Some replacement) w =
    match body self ie original replacement w with
    | (Ok o, w') => (Ok o, w')
    | (Raise e, w') => (Ok (Failure (error_message e)), w')
    end.
Proof.
  intros H. unfold process_segmentation, try_except, bindM, lift. simpl.
  rewrite H. reflexivity.
Qed.

(** The [try] body, stage by stage. *)
Lemma body_stages (self : ImageSegmentationApp SAM) (ie : EditorArg)
  (original replacement : PIL.Image) (w : world) :
  body self ie original replacement w =
    match drawn_mask_of ie with
    | Raise e => (Raise e, w)
    | Ok dm =>
        match points_in dm with
        | Raise e => (Raise e, w)
        | Ok [] => (Ok (NoMaskDrawn original), w)
        | Ok (p :: ps) =>
            match refine predict self original (p :: ps) dm w with
            | (Raise e, w1) => (Raise e, w1)
            | (Ok (sm, msg), w1) =>
                match region original replacement sm with
                | Raise e => (Raise e, w1)
                | Ok res => (Ok (Success dm sm res msg), w1)
                end
            end
        end
    end.
Proof.
  unfold try_body, bindM, lift, ret.
  destruct (drawn_mask_of ie) as [dm|e]; [|reflexivity].
  destruct (points_in dm) as [[|p ps]|e]; try reflexivity.
  destruct (refine predict self original (p :: ps) dm w) as [[[sm msg]|e] w1];
    [|reflexivity].
  simpl. destruct (region original replacement sm); reflexivity.
Qed.

Lemma refine_fallback (self : ImageSegmentationApp SAM)
  (original : PIL.Image) (pts : list point) (dm : PIL.Image) (w : world) :
  model_unavailable self ->
  refine predict self original pts dm w = (Ok (dm, fallback_message), w).
Proof.
  unfold model_unavailable, refine. intros [H | H]; rewrite H.
  - reflexivity.
  - destruct (model self); reflexivity.
Qed.

Lemma refine_message (self : ImageSegmentationApp SAM)
  (original : PIL.Image) (pts : list point) (dm sm : PIL.Image)
  (msg : string) (w w1 : world) :
  refine predict self original pts dm w = (Ok (sm, msg), w1) ->
  msg = fallback_message \/ msg = model_message_ok.
Proof.
  unfold refine, bindM, lift, ret.
  destruct (model self) as [m|]; [destruct (model_available self)|].
  - destruct (predict m original [pts] w) as [[arr|e] w2]; [|discriminate].
    destruct (mask_of_output arr); [|discriminate].
    intros H; inversion H; auto.
  - intros H; inversion H; auto.
  - intros H; inversion H; auto.
Qed.

(** The four shapes of an outcome, and the subscript of line 30 that
    leaves none. *)
Lemma run_shape (self : ImageSegmentationApp SAM) (ie : EditorArg)
  (repl : option PIL.Image) (w : world) :
  (exists e, getitem_background ie = Raise e /\
             run self ie repl w = (Raise e, w)) \/
  exists o w',
    run self ie repl w = (Ok o, w') /\
    (o = Failure upload_message \/
     (exists e, o = Failure (error_message e)) \/
     (exists original, getitem_background ie = Ok (Some original) /\
                       o = NoMaskDrawn original) \/
     (exists dm sm res msg,
        o = Success dm sm res msg /\
        (msg = fallback_message \/ msg = model_message_ok))).
Proof.
  destruct (getitem_background ie) as [[original|]|e0] eqn:Hb;
    [right; rewrite (run_item self ie _ repl w Hb);
     destruct repl as [replacement|]
    |right; rewrite (run_item self ie _ repl w Hb)
    |left; exists e0; split; [reflexivity | apply run_raises; exact Hb]].
  - rewrite body_stages.
    destruct (drawn_mask_of ie) as [dm|e];
      [|do 2 eexists; split; [reflexivity|]; right; left; eauto].
    destruct (points_in dm) as [[|p ps]|e].
    + do 2 eexists; split; [reflexivity|]. right; right; left. eauto.
    + destruct (refine predict self original (p :: ps) dm w)
        as [[[sm msg]|e] w1] eqn:Hr.
      * destruct (region original replacement sm) as [res|e].
        -- do 2 eexists; split; [reflexivity|]. right; right; right.
           exists dm, sm, res, msg. split; [reflexivity|].
           eapply refine_message; eauto.
        -- do 2 eexists; split; [reflexivity|]; right; left; eauto.
      * do 2 eexists; split; [reflexivity|]; right; left; eauto.
    + do 2 eexists; split; [reflexivity|]; right; left; eauto.
  - exists (Failure upload_message), w. split; [reflexivity | left; reflexivity].
  - exists (Failure upload_message), w. split; [reflexivity | left; reflexivity].
Qed.

(** C4.  The subscript [image_editor["background"]] of line 30 stands
    before the [try]: when the editor holds no value the [TypeError] that
    it raises leaves [process_segmentation], and so does the [KeyError] of
    a dict without that key.  No list of outputs is returned, whatever the
    replacement image and the state. *)
Theorem C4_subscript_error_escapes (self : ImageSegmentationApp SAM)
  (repl : option PIL.Image) (w : world) :
  run self PyNone repl w
  = (Raise "'NoneType' object is not subscriptable", w) /\
  (forall layers_item,
     run self (PyDict None layers_item) repl w = (Raise "'background'", w)) /\
  forall ie e,
    getitem_background ie = Raise e ->
    forall o w', run self ie repl w <> (Ok o, w').
Proof.
  split; [reflexivity|]. split; [reflexivity|].
  intros ie e H o w'. rewrite (run_raises self ie repl w e H). discriminate.
Qed.

(** C5.  With no editor value there is no original image, and yet the
    outcome is not the failure "Please upload both images.": line 30
    raises before the two images are compared with [None], with or without
    a replacement image. *)
Theorem C5_null_editor_is_not_reported (self : ImageSegmentationApp SAM)
  (w : world) :
  run self PyNone None w
  = (Raise "'NoneType' object is not subscriptable", w) /\
  forall repl w',
    run self PyNone repl w
    <> (Ok {| out_drawn_mask := None; out_sam_mask := None;
              out_result_image := None;
              out_message := "**❌ Error:** Please upload both images." |},
        w').
Proof.
  split; [reflexivity|]. intros repl w'. discriminate.
Qed.

(** C6.  With both images present, a drawn mask from which no point is
    extracted gives the "No mask drawn" failure, and this failure carries
    the original image in its result slot.  It is the only outcome marked
    as an error that carries an image. *)
Theorem C6_no_mask_drawn (self : ImageSegmentationApp SAM)
  (ie : EditorValue) (original replacement dm : PIL.Image) (w : world) :
  background ie = Some original ->
  drawn_mask_of ie = Ok dm ->
  points_in dm = Ok [] ->
  run self ie (Some replacement) w =
    (Ok {| out_drawn_mask := None; out_sam_mask := None;
           out_result_image := Some original;
           out_message :=
             "**❌ Error:** No mask drawn. Please draw a mask on the original image."
        |}, w)
  /\ severity_of no_mask_message = SevError
  /\ forall (ie' : EditorArg) repl' w' o w'',
       run self ie' repl' w' = (Ok o, w'') ->
       severity_of (out_message o) = SevError ->
       o = Failure (out_message o) \/
       exists original', getitem_background ie' = Ok (Some original') /\
                         o = NoMaskDrawn original'.
Proof.
  intros Hb Hd Hp. split; [|split; [reflexivity|]].
  - rewrite (run_try self ie original replacement w Hb).
    rewrite body_stages, Hd, Hp. reflexivity.
  - intros ie' repl' w' o w'' Hrun Hsev.
    destruct (run_shape self ie' repl' w')
      as [(e & _ & Hraise) | (o' & w3 & Hrun' & Hshape)];
      [rewrite Hrun in Hraise; discriminate|].
    rewrite Hrun in Hrun'. inversion Hrun'; subst o' w3; clear Hrun'.
    destruct Hshape as [-> | [[e ->] | [[orig [Ho ->]] | Hs]]].
    + left; reflexivity.
    + left; reflexivity.
    + right; eauto.
    + destruct Hs as (dm' & sm & res & msg & -> & [-> | ->]);
        simpl in Hsev; discriminate.
Qed.

(** The compositing step succeeds only on a mask of the original's size,
    and its result has the original's size and mode. *)
Lemma region_shape (original replacement sm res : PIL.Image) :
  region original replacement sm = Ok res ->
  PIL.size sm = PIL.size original /\ PIL.size res = PIL.size original /\
  PIL.mode res = PIL.mode original.
Proof.
  unfold replace_region, PIL.composite.
  destruct (PIL.resize resample replacement (PIL.size original))
    as [resized|e] eqn:Hres; simpl; [|discriminate].
  destruct (resize_size_mode resample _ _ _ Hres) as [Sr _].
  intros H. apply paste_shape in H. destruct H as (Hm & Hs & Hk).
  rewrite Sr in Hk. auto.
Qed.

Lemma region_mask_size (original replacement sm : PIL.Image) :
  PIL.size sm <> PIL.size original ->
  exists e, region original replacement sm = Raise e.
Proof.
  intros Hne.
  destruct (region original replacement sm) as [res|e] eqn:H.
  - apply region_shape in H. destruct H as [Hs _]. contradiction.
  - eauto.
Qed.

(** C8.  A refined mask whose dimensions differ from the original's makes
    the compositing step raise, and the caller turns this into a failure
    without images; when the replacement needs no conversion the message
    embeds "images do not match".  No success ever carries a mask or a
    result of another size than the original: nothing is cropped or
    padded. *)
Theorem C8_mask_size_mismatch (self : ImageSegmentationApp SAM)
  (ie : EditorValue) (original replacement dm sm : PIL.Image)
  (p : point) (ps : list point) (msg : string) (w w1 : world) :
  background ie = Some original ->
  drawn_mask_of ie = Ok dm ->
  points_in dm = Ok (p :: ps) ->
  refine predict self original (p :: ps) dm w = (Ok (sm, msg), w1) ->
  PIL.size sm <> PIL.size original ->
  (exists e,
     region original replacement sm = Raise e /\
     run self ie (Some replacement) w = (Ok (Failure (error_message e)), w1))
  /\ (forall resized,
        PIL.resize resample replacement (PIL.size original) = Ok resized ->
        pasted_directly (PIL.mode original) (PIL.mode resized) = true ->
        region original replacement sm = Raise "images do not match")
  /\ (forall (ie' : EditorArg) repl' w' dm' sm' res' msg' w'',
        run self ie' repl' w' = (Ok (Success dm' sm' res' msg'), w'') ->
        exists original',
          getitem_background ie' = Ok (Some original') /\
          PIL.size sm' = PIL.size original' /\
          PIL.size res' = PIL.size original').
Proof.
  intros Hb Hd Hp Hr Hne. split; [|split].
  - destruct (region_mask_size original replacement sm Hne) as [e He].
    exists e. split; [exact He|].
    rewrite (run_try self ie original replacement w Hb).
    rewrite body_stages, Hd, Hp, Hr, He. reflexivity.
  - intros resized Hres Hdir. unfold replace_region, PIL.composite.
    rewrite Hres. cbn [bind].
    destruct (resize_size_mode resample _ _ _ Hres) as [Sr _].
    rewrite (paste_direct convert_pixels _ _ _ Hdir).
    apply ImagingPaste_mask_size. congruence.
  - intros ie' repl' w' dm' sm' res' msg' w'' Hrun.
    destruct (getitem_background ie') as [[original'|]|e'] eqn:Hb';
      [destruct repl' as [replacement'|]| |];
      [|rewrite (run_item self ie' _ _ w' Hb') in Hrun; discriminate
       |rewrite (run_item self ie' _ _ w' Hb') in Hrun; discriminate
       |rewrite (run_raises self ie' _ w' _ Hb') in Hrun; discriminate].
    + rewrite (run_item self ie' _ _ w' Hb') in Hrun.
      rewrite body_stages in Hrun.
      destruct (drawn_mask_of ie') as [d|e]; [|discriminate].
      destruct (points_in d) as [[|q qs]|e]; try discriminate.
      destruct (refine predict self original' (q :: qs) d w')
        as [[[s m]|e] w2]; [|discriminate].
      destruct (region original' replacement' s) as [r|e] eqn:Hreg;
        [|discriminate].
      inversion Hrun; subst.
      apply region_shape in Hreg. destruct Hreg as (Hs & Hrs & _).
      exists original'. auto.
Qed.

Lemma refine_state_blind (self : ImageSegmentationApp SAM)
  (original : PIL.Image) (pts : list point) (dm : PIL.Image) :
  (model_unavailable self \/ forall m im ps, state_blind (predict m im ps)) ->
  state_blind (refine predict self original pts dm).
Proof.
  intros [Hu | Hd].
  - intros w1 w2. rewrite !refine_fallback by exact Hu. reflexivity.
  - unfold refine. destruct (model self) as [m|];
      [destruct (model_available self)|]; try apply state_blind_ret.
    apply state_blind_bindM; [apply Hd|]. intros arr.
    apply state_blind_bindM; [apply state_blind_lift|]. intros sm.
    apply state_blind_ret.
Qed.

Lemma run_state_blind (self : ImageSegmentationApp SAM) (ie : EditorArg)
  (repl : option PIL.Image) :
  (model_unavailable self \/ forall m im ps, state_blind (predict m im ps)) ->
  state_blind (run self ie repl).
Proof.
  intros H. unfold process_segmentation.
  apply state_blind_bindM; [apply state_blind_lift|]. intros item.
  destruct item as [original|];
    [destruct repl as [replacement|]|]; try apply state_blind_ret.
  apply state_blind_try_except; [|intros e; apply state_blind_ret].
  unfold try_body.
  apply state_blind_bindM; [apply state_blind_lift|]. intros dm.
  apply state_blind_bindM; [apply state_blind_lift|]. intros [|p ps].
  - apply state_blind_ret.
  - apply state_blind_bindM; [apply refine_state_blind; exact H|].
    intros refined.
    apply state_blind_bindM; [apply state_blind_lift|]. intros res.
    apply state_blind_ret.
Qed.

(** C9.  With a deterministic provider, that is when the model is
    unavailable or when the network's answer does not depend on its
    state, the outcome of [process_segmentation] is a function of its
    inputs alone: it is the same from any two states, and in particular a
    second invocation, started in the state the first one left, returns
    the outcome of the first.  On the fallback path the state is left
    untouched. *)
Theorem C9_identical_outcomes (self : ImageSegmentationApp SAM)
  (ie : EditorArg) (repl : option PIL.Image) :
  (model_unavailable self \/ forall m im ps, state_blind (predict m im ps)) ->
  (forall w1 w2, fst (run self ie repl w1) = fst (run self ie repl w2)) /\
  (forall w,
     fst (run self ie repl (snd (run self ie repl w)))
     = fst (run self ie repl w)) /\
  (model_unavailable self -> forall w, snd (run self ie repl w) = w).
Proof.
  intros H. split; [|split].
  - apply run_state_blind. exact H.
  - intros w. apply run_state_blind. exact H.
  - intros Hu w.
    destruct (getitem_background ie) as [[original|]|e0] eqn:Hb;
      [destruct repl as [replacement|]| |];
      [|rewrite (run_item self ie _ _ w Hb); reflexivity
       |rewrite (run_item self ie _ _ w Hb); reflexivity
       |rewrite (run_raises self ie _ w _ Hb); reflexivity].
    rewrite (run_item self ie _ _ w Hb), body_stages.
    destruct (drawn_mask_of ie) as [dm|e]; [|reflexivity].
    destruct (points_in dm) as [[|p ps]|e]; try reflexivity.
    rewrite refine_fallback by exact Hu.
    destruct (region original replacement dm); reflexivity.
Qed.

(** When the compositing step succeeds: a resizable replacement that is
    pasted without conversion, and a mask of the original's size in a mask
    mode. *)
Lemma region_ok (original replacement sm resized : PIL.Image) :
  PIL.resize resample replacement (PIL.size original) = Ok resized ->
  pasted_directly (PIL.mode original) (PIL.mode replacement) = true ->
  PIL.size sm = PIL.size original ->
  transparency_mask (PIL.mode sm) = true ->
  exists res, region original replacement sm = Ok res.
Proof.
  intros Hres Hdir Hs Hm.
  destruct (resize_size_mode resample _ _ _ Hres) as [Sr Mr].
  unfold replace_region, PIL.composite. rewrite Hres. cbn [bind].
  rewrite <- Mr in Hdir.
  rewrite (paste_direct convert_pixels _ _ _ Hdir).
  apply ImagingPaste_ok.
  - apply pasted_directly_pixelsize. exact Hdir.
  - congruence.
  - exact Hm.
Qed.

Lemma region_converted (original replacement sm resized : PIL.Image) :
  PIL.resize resample replacement (PIL.size original) = Ok resized ->
  pasted_directly (PIL.mode original) (PIL.mode replacement) = false ->
  PIL.size sm = PIL.size original ->
  transparency_mask (PIL.mode sm) = true ->
  match convert_pixels resized (PIL.mode original) with
  | Ok rows => exists res, region original replacement sm = Ok res
  | Raise e => region original replacement sm = Raise e
  end.
Proof.
  intros Hres Hdir Hs Hm.
  destruct (resize_size_mode resample _ _ _ Hres) as [Sr Mr].
  unfold replace_region, PIL.composite. rewrite Hres. cbn [bind].
  rewrite <- Mr in Hdir.
  rewrite (paste_converted convert_pixels _ _ _ Hdir).
  destruct (convert_pixels resized (PIL.mode original)) as [rows|e];
    [|reflexivity].
  apply ImagingPaste_ok; simpl.
  - reflexivity.
  - congruence.
  - exact Hm.
Qed.

Lemma run_composited (self : ImageSegmentationApp SAM) (ie : EditorValue)
  (original replacement dm sm : PIL.Image) (p : point) (ps : list point)
  (msg : string) (w w1 : world) :
  background ie = Some original ->
  drawn_mask_of ie = Ok dm ->
  points_in dm = Ok (p :: ps) ->
  refine predict self original (p :: ps) dm w = (Ok (sm, msg), w1) ->
  run self ie (Some replacement) w =
    match region original replacement sm with
    | Ok res => (Ok (Success dm sm res msg), w1)
    | Raise e => (Ok (Failure (error_message e)), w1)
    end.
Proof.
  intros Hb Hd Hp Hr.
  rewrite (run_try self ie original replacement w Hb).
  rewrite body_stages, Hd, Hp, Hr.
  destruct (region original replacement sm); reflexivity.
Qed.

(** C3, as the code has it.  Without a model, [refine] returns the drawn
    mask it was given, unchanged, with the warning message, and raises
    nothing.  A run whose drawn mask yields at least one point then
    returns a success whose refined mask is the drawn mask and whose
    message is a warning whenever the compositing step succeeds, which it
    does when the replacement can be resized and is pasted without
    conversion and the drawn mask has the original's size and a mask
    mode; when the compositing step raises, the run is a failure. *)
Theorem C3_fallback_returns_drawn_mask (self : ImageSegmentationApp SAM)
  (ie : EditorValue) (original replacement dm : PIL.Image)
  (p : point) (ps : list point) (w : world) :
  model_unavailable self ->
  background ie = Some original ->
  drawn_mask_of ie = Ok dm ->
  points_in dm = Ok (p :: ps) ->
  (forall original' pts' dm' w',
     refine predict self original' pts' dm' w'
     = (Ok (dm', fallback_message), w'))
  /\ severity_of fallback_message = SevWarning
  /\ (forall res,
        region original replacement dm = Ok res ->
        run self ie (Some replacement) w
        = (Ok (Success dm dm res fallback_message), w))
  /\ (forall e,
        region original replacement dm = Raise e ->
        run self ie (Some replacement) w
        = (Ok (Failure (error_message e)), w))
  /\ (forall resized,
        PIL.resize resample replacement (PIL.size original) = Ok resized ->
        pasted_directly (PIL.mode original) (PIL.mode replacement) = true ->
        PIL.size dm = PIL.size original ->
        transparency_mask (PIL.mode dm) = true ->
        exists res,
          run self ie (Some replacement) w
          = (Ok (Success dm dm res fallback_message), w)).
Proof.
  intros Hu Hb Hd Hp.
  pose proof (run_composited self ie original replacement dm dm p ps
                fallback_message w w Hb Hd Hp
                (refine_fallback self original (p :: ps) dm w Hu)) as Hrun.
  split; [|split; [reflexivity|split; [|split]]].
  - intros. apply refine_fallback. exact Hu.
  - intros res Hreg. rewrite Hrun, Hreg. reflexivity.
  - intros e Hreg. rewrite Hrun, Hreg. reflexivity.
  - intros resized Hres Hdir Hs Hm.
    destruct (region_ok original replacement dm resized Hres Hdir Hs Hm)
      as [res Hreg].
    exists res. rewrite Hrun, Hreg. reflexivity.
Qed.

(** C10, as the code has it.  The pipeline neither compares nor converts
    pixel modes, and [resize] changes the size of the replacement and
    keeps its mode.  A replacement of another mode than the original is
    handled inside [Image.composite]: an RGB original takes an LA or RGBA
    replacement as it is, and any other replacement is converted to the
    original's mode, so that the run succeeds with a result in the
    original's mode.  The run fails on account of the modes only when that
    conversion raises, and the message then embeds the description of the
    conversion error. *)
Theorem C10_mode_mismatch_is_converted (self : ImageSegmentationApp SAM)
  (ie : EditorValue) (original replacement dm sm resized : PIL.Image)
  (p : point) (ps : list point) (msg : string) (w w1 : world) :
  background ie = Some original ->
  drawn_mask_of ie = Ok dm ->
  points_in dm = Ok (p :: ps) ->
  refine predict self original (p :: ps) dm w = (Ok (sm, msg), w1) ->
  PIL.mode replacement <> PIL.mode original ->
  PIL.resize resample replacement (PIL.size original) = Ok resized ->
  PIL.size sm = PIL.size original ->
  transparency_mask (PIL.mode sm) = true ->
  PIL.mode resized = PIL.mode replacement
  /\ PIL.size resized = PIL.size original
  /\ match pasted_directly (PIL.mode original) (PIL.mode replacement),
           convert_pixels resized (PIL.mode original) with
     | false, Raise e =>
         run self ie (Some replacement) w
         = (Ok (Failure (error_message e)), w1)
     | _, _ =>
         exists res,
           run self ie (Some replacement) w
           = (Ok (Success dm sm res msg), w1)
           /\ PIL.mode res = PIL.mode original
           /\ PIL.size res = PIL.size original
     end.
Proof.
  intros Hb Hd Hp Hr Hne Hres Hs Hm.
  destruct (resize_size_mode resample _ _ _ Hres) as [Sr Mr].
  pose proof (run_composited self ie original replacement dm sm p ps msg
                w w1 Hb Hd Hp Hr) as Hrun.
  split; [exact Mr|]. split; [exact Sr|].
  assert (Hsucc : forall res,
    region original replacement sm = Ok res ->
    exists res',
      run self ie (Some replacement) w = (Ok (Success dm sm res' msg), w1)
      /\ PIL.mode res' = PIL.mode original
      /\ PIL.size res' = PIL.size original).
  { intros res Hreg. exists res. rewrite Hrun, Hreg.
    apply region_shape in Hreg. destruct Hreg as (_ & Hsz & Hmo). auto. }
  destruct (pasted_directly (PIL.mode original) (PIL.mode replacement))
    eqn:Hdir.
  - destruct (region_ok original replacement sm resized Hres Hdir Hs Hm)
      as [res Hreg].
    destruct (convert_pixels resized (PIL.mode original));
      apply (Hsucc res Hreg).
  - pose proof (region_converted original replacement sm resized
                  Hres Hdir Hs Hm) as Hc.
    destruct (convert_pixels resized (PIL.mode original)) as [rows|e].
    + destruct Hc as [res Hreg]. apply (Hsucc res Hreg).
    + rewrite Hrun, Hc. reflexivity.
Qed.

End Pipeline.

(** ** Post-processing of the network output (lines 72-74) *)

Lemma chunks_length {A : Type} (n c : nat) (l : list A) :
  length (chunks n c l) = c.
Proof. revert l; induction c as [|c IH]; intros l; simpl; auto. Qed.

Lemma chunks_row_length {A : Type} (n c : nat) (l : list A) :
  length l = (n * c)%nat -> Forall (fun r => length r = n) (chunks n c l).
Proof.
  revert l; induction c as [|c IH]; intros l Hl; simpl; constructor.
  - rewrite length_firstn. lia.
  - apply IH. rewrite length_skipn. lia.
Qed.

Lemma chunks_Forall {A : Type} (P : A -> Prop) (n c : nat) (l : list A) :
  Forall P l -> Forall (Forall P) (chunks n c l).
Proof.
  revert l; induction c as [|c IH]; intros l Hl; simpl; constructor.
  - rewrite <- (firstn_skipn n l) in Hl. apply Forall_app in Hl. tauto.
  - apply IH. rewrite <- (firstn_skipn n l) in Hl. apply Forall_app in Hl.
    tauto.
Qed.

Lemma binary_scalar_bytes (dt : Np.dtype) (x : Np.scalar) :
  binary_scalar x ->
  Np.to_uint8 (Np.mul_scalar dt x) = 0 \/ Np.to_uint8 (Np.mul_scalar dt x) = 255.
Proof.
  intros [-> | [-> | [-> | ->]]].
  - left. destruct dt; reflexivity.
  - right. destruct dt; reflexivity.
  - left. reflexivity.
  - right. reflexivity.
Qed.

Lemma squeeze_image_shape (h w : nat) :
  (2 <= h)%nat -> (2 <= w)%nat ->
  filter (fun n => negb (Nat.eqb n 1)) [h; w] = [h; w] /\
  filter (fun n => negb (Nat.eqb n 1)) [1%nat; h; w] = [h; w].
Proof.
  intros Hh Hw. simpl.
  destruct (Nat.eqb_spec h 1); [lia|].
  destruct (Nat.eqb_spec w 1); [lia|].
  simpl. split; reflexivity.
Qed.

Lemma fromarray_two_axes (a : Np.ndarray) (h w : nat) :
  Np.shape a = [h; w] ->
  Np.fromarray (Np.astype_uint8 (Np.mul_255 a)) =
    Ok {| PIL.mode := PIL.M_L; PIL.size := (w, h);
          PIL.pixels :=
            chunks w h
              (chunks 1 (w * h)
                 (map Np.to_uint8
                    (map (Np.mul_scalar (Np.dtype_of a)) (Np.data a)))) |}.
Proof.
  intros H. unfold Np.fromarray, Np.astype_uint8, Np.mul_255.
  cbn [Np.shape8 Np.shape Np.bytes Np.data]. rewrite H. reflexivity.
Qed.

(** C7, as the code has it.  The post-processing scales by 255 and casts to
    [uint8]; it does not threshold.  For a network output of the original's
    shape (height, width), alone or behind a leading axis of length one,
    both at least two pixels, whose elements are exactly false or true
    (0 or 1, 0.0 or 1.0), it yields a single-channel mask with every pixel 0
    or 255 and with the original's dimensions. *)
Theorem C7_binary_output_mask (original : PIL.Image) (arr : Np.ndarray) :
  Np.shape arr = [PIL.height original; PIL.width original]
  \/ Np.shape arr = [1%nat; PIL.height original; PIL.width original] ->
  (2 <= PIL.height original)%nat -> (2 <= PIL.width original)%nat ->
  length (Np.data arr) = (PIL.height original * PIL.width original)%nat ->
  Forall binary_scalar (Np.data arr) ->
  exists mask,
    mask_of_output arr = Ok mask /\
    binary_mask mask /\
    PIL.size mask = PIL.size original /\
    PIL.well_formed mask = true.
Proof.
  intros Hshape Hh Hw Hlen Hbin.
  set (h := PIL.height original) in *. set (w := PIL.width original) in *.
  set (bs := map Np.to_uint8 (map (Np.mul_scalar (Np.dtype_of arr)) (Np.data arr))).
  assert (Hsq : Np.shape (Np.squeeze arr) = [h; w]).
  { destruct (squeeze_image_shape h w Hh Hw) as [E1 E2].
    unfold Np.squeeze; simpl. destruct Hshape as [-> | ->]; assumption. }
  assert (Hout : mask_of_output arr =
            Ok {| PIL.mode := PIL.M_L; PIL.size := (w, h);
                  PIL.pixels := chunks w h (chunks 1 (w * h) bs) |}).
  { unfold mask_of_output. rewrite (fromarray_two_axes _ h w Hsq).
    reflexivity. }
  assert (Hbs : Forall (fun v => v = 0 \/ v = 255) bs).
  { unfold bs. rewrite map_map. apply Forall_map.
    eapply Forall_impl; [|exact Hbin].
    intros x Hx. apply binary_scalar_bytes. exact Hx. }
  assert (Lbs : length bs = (1 * (w * h))%nat).
  { unfold bs. rewrite !length_map. lia. }
  pose proof (chunks_row_length 1 (w * h) bs Lbs) as Hpl.
  pose proof (chunks_Forall _ 1 (w * h) bs Hbs) as Hpv.
  pose proof (chunks_length 1 (w * h) bs) as Lpx.
  set (px := chunks 1 (w * h) bs) in *.
  pose proof (chunks_row_length w h px Lpx) as Hrl.
  assert (Hpix : Forall (fun p => length p = 1%nat /\
                                  Forall (fun v => v = 0 \/ v = 255) p) px).
  { apply Forall_forall. intros p Hp. rewrite Forall_forall in Hpl, Hpv. auto. }
  pose proof (chunks_Forall _ w h px Hpix) as Hrows.
  pose proof (chunks_length w h px) as Lrows.
  set (rows := chunks w h px) in *.
  (* one pixel of the mask *)
  assert (Hget : forall x y, (x < w)%nat -> (y < h)%nat ->
            exists v, nth x (nth y rows []) [] = [v] /\ (v = 0 \/ v = 255)).
  { intros x y Hx Hy. rewrite Forall_forall in Hrl, Hrows.
    assert (Hin : In (nth y rows []) rows) by (apply nth_In; lia).
    pose proof (Hrl _ Hin) as Lr. pose proof (Hrows _ Hin) as Fr.
    rewrite Forall_forall in Fr.
    assert (Hin' : In (nth x (nth y rows []) []) (nth y rows []))
      by (apply nth_In; lia).
    destruct (Fr _ Hin') as [L1 Fv].
    destruct (nth x (nth y rows []) []) as [|v [|v' p]]; simpl in L1;
      try discriminate.
    exists v. split; [reflexivity|]. inversion Fv; assumption. }
  eexists. split; [exact Hout|]. split; [|split].
  - split; [reflexivity|]. unfold PIL.width, PIL.height, PIL.getband. simpl.
    intros x y Hx Hy. destruct (Hget x y Hx Hy) as (v & E & Hv).
    assert (G : forall p : list Z,
              p = [v] -> nth 0 p 0 = 0 \/ nth 0 p 0 = 255)
      by (intros ? ->; exact Hv).
    apply G. exact E.
  - unfold PIL.size. destruct original as [mo [wo ho] po]. reflexivity.
  - unfold PIL.well_formed, PIL.rows_ok. simpl.
    fold px. fold rows. rewrite Lrows, Nat.eqb_refl. simpl.
    apply forallb_forall. intros row Hrow.
    rewrite Forall_forall in Hrl, Hrows.
    rewrite (Hrl _ Hrow), Nat.eqb_refl. simpl.
    apply forallb_forall. intros p Hp.
    pose proof (Hrows _ Hrow) as Fr. rewrite Forall_forall in Fr.
    destruct (Fr _ Hp) as [L1 Fv].
    unfold PIL.pixel_ok. simpl. rewrite L1. simpl.
    apply forallb_forall. intros v Hv. rewrite Forall_forall in Fv.
    destruct (Fv _ Hv) as [-> | ->]; reflexivity.
Qed.

(** ** Point extraction (lines 42-54) *)

Section PointExtractor.

Variable findContours : Np.ndarray -> result (list Cv2.contour).
Variable moments : Cv2.contour -> Cv2.Moments.








End PointExtractor.

(** ** Runs on concrete inputs *)

Module Runs.

Import Demo.

(** A one-pixel blue replacement is resized to a 2x2 original and blended
    through a mask holding 0, 255, 128 and 64: over a red original of its
    own mode, and, converted to its luma 29, over a grey original of mode
    L. *)
Lemma C1_soft_mask_run :
  PIL.resize nearest_rows (rgb 1 1 blue) (2, 2)%nat = Ok (rgb 2 2 blue) /\
  (exists out,
     replace_region nearest_rows no_convert (rgb 2 2 red) (rgb 1 1 blue)
       soft_mask = Ok out /\
     PIL.getband out 0 0 0 = 255 /\ PIL.getband out 0 0 2 = 0 /\
     PIL.getband out 1 0 0 = 0 /\ PIL.getband out 1 0 2 = 255 /\
     PIL.getband out 0 1 0 = 127 /\ PIL.getband out 0 1 2 = 128) /\
  PIL.convert luma_convert (rgb 2 2 blue) PIL.M_L = Ok (grey 2 2 29) /\
  (exists out,
     replace_region nearest_rows luma_convert (grey 2 2 200) (rgb 1 1 blue)
       soft_mask = Ok out /\
     PIL.getband out 0 0 0 = 200 /\ PIL.getband out 1 0 0 = 29 /\
     PIL.getband out 0 1 0 = 114 /\ PIL.getband out 1 1 0 = 157).
Proof.
  split; [reflexivity|]. split; [|split; [reflexivity|]].
  - destruct (proj1 (C1_composite_blends nearest_rows no_convert
                (rgb 2 2 red) (rgb 1 1 blue) soft_mask (rgb 2 2 blue)
                nearest_rows_sound eq_refl eq_refl eq_refl eq_refl eq_refl
                eq_refl) eq_refl)
      as (out & Hreg & _ & _ & _ & Hpix & _).
    exists out. split; [exact Hreg|].
    assert (H : forall x y b, (x < 2)%nat -> (y < 2)%nat -> (b < 3)%nat ->
              PIL.getband out x y b =
                PIL.BLEND8 (PIL.getband soft_mask x y 0)
                  (PIL.getband (rgb 2 2 red) x y b)
                  (PIL.getband (rgb 2 2 blue) x y b)).
    { intros x y b Hx Hy Hb. apply (Hpix x y b); assumption. }
    repeat split; rewrite H by lia; reflexivity.
  - destruct (proj2 (C1_composite_blends nearest_rows luma_convert
                (grey 2 2 200) (rgb 1 1 blue) soft_mask (rgb 2 2 blue)
                nearest_rows_sound eq_refl eq_refl eq_refl eq_refl eq_refl
                eq_refl) (grey 2 2 29) luma_convert_sound eq_refl)
      as (_ & out & Hreg & _ & _ & Hpix & _).
    exists out. split; [exact Hreg|].
    repeat split; rewrite Hpix by (apply Nat.ltb_lt; reflexivity);
      reflexivity.
Defined.

(** A grey original of mode L and a blue RGB replacement under an all-255
    mask: the composite holds the luma of blue, 29, in its only band, and
    is not the resized replacement. *)
Lemma C1_mixed_mode_counterexample :
  uniform_mask 255 (mask_of_rows [[255; 255]; [255; 255]]) /\
  PIL.resize nearest_rows (rgb 1 1 blue) (PIL.size (grey 2 2 200))
  = Ok (rgb 2 2 blue) /\
  replace_region nearest_rows luma_convert (grey 2 2 200) (rgb 1 1 blue)
    (mask_of_rows [[255; 255]; [255; 255]]) = Ok (grey 2 2 29) /\
  grey 2 2 29 <> rgb 2 2 blue /\
  PIL.getband (grey 2 2 29) 0 0 0 = 29 /\
  PIL.getband (rgb 2 2 blue) 0 0 0 = 0.
Proof.
  split.
  - intros x y Hx Hy. change (x < 2)%nat in Hx. change (y < 2)%nat in Hy.
    destruct x as [|[|x]]; [| |lia]; destruct y as [|[|y]]; try lia;
      reflexivity.
  - split; [reflexivity|]. split; [reflexivity|].
    split; [discriminate|]. split; reflexivity.
Qed.



(** Without a model, a 3x3 layer painted in its centre over a 2x2
    original: a point is extracted, the drawn mask is the refined mask,
    and the run is a failure because the mask does not fit the
    original. *)
Lemma C3_size_mismatch_counterexample :
  model_unavailable app_without_model /\
  drawn_mask_of (editor (rgb 2 2 red) centre_layer) = Ok centre_mask /\
  (exists p,
     extract_points external_contours contour_moments centre_mask = Ok [p]) /\
  run half_output app_without_model (editor (rgb 2 2 red) centre_layer)
      (Some (rgb 2 2 blue)) tt
  = (Ok (Failure (error_message "images do not match")), tt).
Proof.
  split; [left; reflexivity|]. split; [reflexivity|].
  split; [eexists; reflexivity|]. reflexivity.
Qed.

Lemma C3_fallback_run :
  model_unavailable app_without_model /\
  exists res,
    run half_output app_without_model (editor (rgb 3 3 red) centre_layer)
        (Some (rgb 2 2 blue)) tt
    = (Ok (Success centre_mask centre_mask res fallback_message), tt).
Proof.
  split; [left; reflexivity|].
  destruct (C3_fallback_returns_drawn_mask nearest_rows no_convert
              external_contours contour_moments unit unit
              (predict_const half_output) app_without_model
              (editor (rgb 3 3 red) centre_layer) (rgb 3 3 red)
              (rgb 2 2 blue) centre_mask
              (Float64.of_int 1, Float64.of_int 1) [] tt
              (or_introl eq_refl) eq_refl eq_refl eq_refl)
    as (_ & _ & _ & _ & Hok).
  apply (Hok (rgb 3 3 blue)); reflexivity.
Defined.

Lemma C6_blank_layer_run :
  extract_points external_contours contour_moments
    (mask_of_rows blank_rows) = Ok [] /\
  run half_output app_with_model (editor (rgb 3 3 red) blank_layer)
      (Some (rgb 2 2 blue)) tt
  = (Ok (NoMaskDrawn (rgb 3 3 red)), tt).
Proof.
  split; [reflexivity|].
  apply (C6_no_mask_drawn nearest_rows no_convert external_contours
           contour_moments unit unit (predict_const half_output)
           app_with_model (editor (rgb 3 3 red) blank_layer)
           (rgb 3 3 red) (rgb 2 2 blue) (mask_of_rows blank_rows) tt
           eq_refl eq_refl eq_refl).
Defined.

(** A network output with the value 0.5: every element lies in [0, 1],
    and the mask holds 127. *)
Lemma C7_fractional_counterexample :
  forallb unit_interval (Np.data half_output) = true /\
  exists mask,
    mask_of_output half_output = Ok mask /\
    PIL.size mask = (2, 2)%nat /\
    PIL.getband mask 0 0 0 = 127 /\
    ~ binary_mask mask.
Proof.
  split; [reflexivity|].
  eexists. split; [reflexivity|]. split; [reflexivity|].
  split; [reflexivity|].
  intros [_ H].
  destruct (H 0%nat 0%nat) as [H0 | H0];
    try (apply Nat.ltb_lt; reflexivity); discriminate H0.
Qed.

Lemma C7_binary_run :
  exists mask,
    mask_of_output binary_output = Ok mask /\
    binary_mask mask /\
    PIL.size mask = PIL.size (rgb 2 2 red).
Proof.
  destruct (C7_binary_output_mask (rgb 2 2 red) binary_output)
    as (mask & Hm & Hb & Hs & _).
  - right; reflexivity.
  - apply Nat.leb_le; reflexivity.
  - apply Nat.leb_le; reflexivity.
  - reflexivity.
  - simpl.
    repeat (apply Forall_cons; [unfold binary_scalar; auto 8|]).
    apply Forall_nil.
  - exists mask. auto.
Defined.

Lemma C8_size_mismatch_run :
  PIL.size centre_mask <> PIL.size (rgb 2 2 red) /\
  exists e,
    replace_region nearest_rows no_convert (rgb 2 2 red) (rgb 2 2 blue)
      centre_mask = Raise e /\
    run half_output app_without_model (editor (rgb 2 2 red) centre_layer)
        (Some (rgb 2 2 blue)) tt
    = (Ok (Failure (error_message e)), tt).
Proof.
  assert (Hne : PIL.size centre_mask <> PIL.size (rgb 2 2 red))
    by discriminate.
  split; [exact Hne|].
  apply (C8_mask_size_mismatch nearest_rows no_convert external_contours
           contour_moments unit unit (predict_const half_output)
           app_without_model (editor (rgb 2 2 red) centre_layer)
           (rgb 2 2 red) (rgb 2 2 blue) centre_mask centre_mask
           (Float64.of_int 1, Float64.of_int 1) [] fallback_message tt tt
           eq_refl eq_refl eq_refl eq_refl Hne).
Defined.

Lemma C9_fallback_twice :
  let first := run half_output app_without_model
                 (editor (rgb 3 3 red) centre_layer) (Some (rgb 2 2 blue)) tt in
  fst (run half_output app_without_model
         (editor (rgb 3 3 red) centre_layer) (Some (rgb 2 2 blue))
         (snd first))
  = fst first.
Proof.
  apply (C9_identical_outcomes nearest_rows no_convert external_contours
           contour_moments unit unit (predict_const half_output)
           app_without_model (editor (rgb 3 3 red) centre_layer)
           (Some (rgb 2 2 blue)) (or_introl (or_introl eq_refl))).
Defined.

(** An RGB original and an RGBA replacement, with no conversion on offer:
    the run succeeds. *)
Lemma C10_rgba_replacement_counterexample :
  PIL.mode (rgb 3 3 red) = PIL.M_RGB /\
  PIL.mode (blue_rgba 2 2) = PIL.M_RGBA /\
  run half_output app_without_model (editor (rgb 3 3 red) centre_layer)
      (Some (blue_rgba 2 2)) tt
  = (Ok (Success centre_mask centre_mask
           {| PIL.mode := PIL.M_RGB; PIL.size := (3, 3)%nat;
              PIL.pixels := [ [red; red; red];
                              [red; blue; red];
                              [red; red; red] ] |}
           fallback_message), tt) /\
  severity_of fallback_message <> SevError.
Proof.
  split; [reflexivity|]. split; [reflexivity|]. split; [reflexivity|].
  discriminate.
Qed.

Lemma C10_rgba_replacement_run :
  PIL.mode (blue_rgba 2 2) <> PIL.mode (rgb 3 3 red) /\
  exists res,
    run half_output app_without_model (editor (rgb 3 3 red) centre_layer)
        (Some (blue_rgba 2 2)) tt
    = (Ok (Success centre_mask centre_mask res fallback_message), tt) /\
    PIL.mode res = PIL.M_RGB /\ PIL.size res = (3, 3)%nat.
Proof.
  assert (Hne : PIL.mode (blue_rgba 2 2) <> PIL.mode (rgb 3 3 red))
    by discriminate.
  split; [exact Hne|].
  destruct (C10_mode_mismatch_is_converted nearest_rows no_convert
              external_contours contour_moments unit unit
              (predict_const half_output) app_without_model
              (editor (rgb 3 3 red) centre_layer) (rgb 3 3 red)
              (blue_rgba 2 2) centre_mask centre_mask (blue_rgba 3 3)
              (Float64.of_int 1, Float64.of_int 1) [] fallback_message
              tt tt eq_refl eq_refl eq_refl eq_refl Hne eq_refl eq_refl
              eq_refl)
    as (_ & _ & H).
  exact H.
Defined.

(** Weights that cannot be loaded leave the app without a model. *)
Lemma init_without_weights_run :
  init load_fails tt = (Ok app_without_model, tt).
Proof. reflexivity. Qed.

Lemma init_with_weights_run :
  init load_succeeds tt = (Ok app_with_model, tt).
Proof. reflexivity. Qed.

(** With a model, the refined mask is the scaled network output and the
    size of the drawn layer plays no part. *)
Lemma model_path_run :
  run binary_output app_with_model (editor (rgb 2 2 red) centre_layer)
      (Some (rgb 2 2 blue)) tt
  = (Ok (Success centre_mask (mask_of_rows [[255; 255]; [0; 255]])
           {| PIL.mode := PIL.M_RGB; PIL.size := (2, 2)%nat;
              PIL.pixels := [ [blue; blue]; [red; blue] ] |}
           model_message_ok), tt).
Proof. reflexivity. Qed.

End Runs.

(** * Further properties of the code *)

(** ** Construction and the fallback (lines 8-18 and 60-63) *)

(** X1.  [__init__] raises nothing, whatever the loader does.  It leaves the
    state as the load attempt left it, holds the loaded model exactly when
    the load succeeded, and sets [model_available] exactly when a model is
    held. *)
Theorem X1_init_invariant {SAM world : Type} (load : string -> M world SAM)
  (w : world) :
  exists self,
    init load w = (Ok self, snd (load "sam2.1_t.pt" w)) /\
    (model_available self = true <-> model self <> None) /\
    match fst (load "sam2.1_t.pt" w) with
    | Ok m => model self = Some m
    | Raise _ => model self = None
    end.
Proof.
  unfold init, try_except, bindM, ret.
  destruct (load "sam2.1_t.pt" w) as [[m|e] w']; simpl.
  - eexists. split; [reflexivity|]. simpl. split; [|reflexivity].
    split; intros; [discriminate | reflexivity].
  - eexists. split; [reflexivity|]. simpl. split; [|reflexivity].
    split; intros H; [discriminate | contradiction].
Qed.

Section Coverage.

Variable resample : PIL.Image -> nat * nat -> result (list (list PIL.pixel)).
Variable convert_pixels :
  PIL.Image -> PIL.pil_mode -> result (list (list PIL.pixel)).
Variable findContours : Np.ndarray -> result (list Cv2.contour).
Variable moments : Cv2.contour -> Cv2.Moments.
Variable SAM : Type.
Variable world : Type.
Variable predict : SAM -> PIL.Image -> list (list point) -> M world Np.ndarray.

Local Abbreviation run_with :=
  (process_segmentation resample convert_pixels findContours moments).
Local Abbreviation run := (run_with predict).
Local Abbreviation points_in := (extract_points findContours moments).
Local Abbreviation region := (replace_region resample convert_pixels).
Local Abbreviation stages :=
  (body_stages resample convert_pixels findContours moments SAM world).
Local Abbreviation to_try :=
  (run_try resample convert_pixels findContours moments SAM world).
Local Abbreviation missing :=
  (run_missing resample convert_pixels findContours moments SAM world).
Local Abbreviation by_item :=
  (run_item resample convert_pixels findContours moments SAM world).
Local Abbreviation raises :=
  (run_raises resample convert_pixels findContours moments SAM world).

(** Without a model the run is computed without the network. *)
Lemma run_without_model
  (predict' : SAM -> PIL.Image -> list (list point) -> M world Np.ndarray)
  (self : ImageSegmentationApp SAM) (ie : EditorArg)
  (repl : option PIL.Image) (w : world) :
  model_unavailable self ->
  run self ie repl w = run_with predict' self ie repl w /\
  snd (run self ie repl w) = w /\
  forall o u, run self ie repl w = (Ok o, u) ->
    out_message o <> model_message_ok.
Proof.
  intros Hu.
  destruct (getitem_background ie) as [[original|]|e0] eqn:Hb;
    [destruct repl as [replacement|]| |].
  - rewrite (by_item predict self ie _ _ w Hb).
    rewrite (by_item predict' self ie _ _ w Hb).
    rewrite !stages.
    destruct (drawn_mask_of ie) as [dm|e];
      [|repeat split; intros o u H; inversion H; discriminate].
    destruct (points_in dm) as [[|p ps]|e];
      try (repeat split; intros o u H; inversion H; discriminate).
    rewrite (refine_fallback SAM world predict self original (p :: ps) dm w Hu).
    rewrite (refine_fallback SAM world predict' self original (p :: ps) dm w Hu).
    destruct (region original replacement dm);
      repeat split; intros o u H; inversion H; discriminate.
  - rewrite (by_item predict self ie _ _ w Hb).
    rewrite (by_item predict' self ie _ _ w Hb).
    repeat split; intros o u H; inversion H; discriminate.
  - rewrite (by_item predict self ie _ _ w Hb).
    rewrite (by_item predict' self ie _ _ w Hb).
    repeat split; intros o u H; inversion H; discriminate.
  - rewrite (raises predict self ie _ w _ Hb).
    rewrite (raises predict' self ie _ w _ Hb).
    repeat split; intros o u H; inversion H.
Qed.

(** X2.  When the weights cannot be loaded, the app that [__init__] builds
    never calls the network: a run gives the same outcome whatever the
    network would answer, leaves the state untouched, and never reports
    "Segmentation completed with SAM2". *)
Theorem X2_failed_load_never_calls_network
  (load : string -> M world SAM)
  (predict' : SAM -> PIL.Image -> list (list point) -> M world Np.ndarray)
  (e : string) (w w' : world) :
  load "sam2.1_t.pt" w = (Raise e, w') ->
  exists self,
    init load w = (Ok self, w') /\
    forall ie repl v,
      run self ie repl v = run_with predict' self ie repl v /\
      snd (run self ie repl v) = v /\
      forall o u, run self ie repl v = (Ok o, u) ->
        out_message o <> model_message_ok.
Proof.
  intros Hload.
  destruct (init_without_weights load w w' e Hload) as (self & Hinit & Hu).
  exists self. split; [exact Hinit|].
  intros ie repl v. apply run_without_model. exact Hu.
Qed.

(** ** The drawn layer (lines 35-38) *)

(** X3.  With both images present, a null layer list, an empty layer list
    and a null first layer each give a failure that names the Python error;
    otherwise the first layer alone is read: the layers after it change
    nothing. *)
Theorem X3_first_layer_only (self : ImageSegmentationApp SAM)
  (original replacement : PIL.Image) (w : world) :
  let editor ls := {| background := Some original; layers := ls |} in
  run self (editor None) (Some replacement) w
  = (Ok (Failure (error_message "'NoneType' object is not subscriptable")), w)
  /\ run self (editor (Some [])) (Some replacement) w
     = (Ok (Failure (error_message "list index out of range")), w)
  /\ (forall rest,
        run self (editor (Some (None :: rest))) (Some replacement) w
        = (Ok (Failure
                 (error_message "'NoneType' object has no attribute 'split'")),
           w))
  /\ (forall layer rest rest',
        run self (editor (Some (Some layer :: rest))) (Some replacement) w
        = run self (editor (Some (Some layer :: rest'))) (Some replacement) w).
Proof.
  intros editor. repeat split; intros;
    rewrite ?(to_try predict self _ original replacement w eq_refl), ?stages;
    reflexivity.
Qed.

End Coverage.

Lemma nth_map_default {A B : Type} (f : A -> B) (l : list A) (n : nat)
  (d : A) (d' : B) :
  f d = d' -> nth n (map f l) d' = f (nth n l d).
Proof. intros <-. apply map_nth. Qed.

Lemma band_image_getband (im : PIL.Image) (b x y : nat) :
  PIL.getband (PIL.band_image im b) x y 0 = PIL.getband im x y b.
Proof.
  unfold PIL.getband, PIL.band_image. simpl.
  rewrite (nth_map_default (map (fun px => [nth b px 0])) _ y [] [] eq_refl).
  destruct (Nat.lt_ge_cases x (length (nth y (PIL.pixels im) []))) as [H|H].
  - rewrite (nth_indep _ [] [nth b [] 0])
      by (rewrite length_map; exact H).
    rewrite (map_nth (fun px => [nth b px 0])). reflexivity.
  - rewrite (nth_overflow
               (map (fun px => [nth b px 0]) (nth y (PIL.pixels im) [])) [])
      by (rewrite length_map; exact H).
    rewrite (nth_overflow (nth y (PIL.pixels im) []) []) by exact H.
    destruct b; reflexivity.
Qed.

Lemma last_band_of_split (im : PIL.Image) :
  PIL.bands (PIL.mode im) <> 1%nat ->
  last (PIL.split im) im = PIL.band_image im (PIL.bands (PIL.mode im) - 1).
Proof.
  unfold PIL.split. destruct (PIL.mode im); simpl; intros H;
    try reflexivity; contradiction.
Qed.

(** X4.  The drawn mask is the last band of the first layer, with the
    layer's size: the alpha band of an RGBA or LA layer, but the blue band
    of an RGB layer, which has no alpha; a single-band layer is taken as it
    is. *)
Theorem X4_drawn_mask_is_last_band (ie : EditorValue) (layer : PIL.Image)
  (rest : list (option PIL.Image)) :
  layers ie = Some (Some layer :: rest) ->
  exists dm,
    drawn_mask_of ie = Ok dm /\
    PIL.size dm = PIL.size layer /\
    PIL.bands (PIL.mode dm) = 1%nat /\
    (PIL.bands (PIL.mode layer) = 1%nat -> dm = layer) /\
    (PIL.bands (PIL.mode layer) <> 1%nat -> PIL.mode dm = PIL.M_L) /\
    forall x y,
      PIL.getband dm x y 0
      = PIL.getband layer x y (PIL.bands (PIL.mode layer) - 1).
Proof.
  intros Hl. unfold drawn_mask_of, of_value. cbn [getitem_layers bind].
  rewrite Hl. simpl.
  eexists. split; [reflexivity|].
  destruct (Nat.eq_dec (PIL.bands (PIL.mode layer)) 1) as [H1|H1].
  - assert (E : last (PIL.split layer) layer = layer).
    { unfold PIL.split. rewrite H1. reflexivity. }
    rewrite E, H1. repeat split; try reflexivity; try assumption.
    intros; contradiction.
  - rewrite (last_band_of_split layer H1).
    repeat split; try reflexivity.
    + intros; contradiction.
    + intros x y. apply band_image_getband.
Qed.

Section Dataflow.

Variable resample : PIL.Image -> nat * nat -> result (list (list PIL.pixel)).
Variable convert_pixels :
  PIL.Image -> PIL.pil_mode -> result (list (list PIL.pixel)).
Variable findContours : Np.ndarray -> result (list Cv2.contour).
Variable moments : Cv2.contour -> Cv2.Moments.
Variable SAM : Type.
Variable world : Type.
Variable predict : SAM -> PIL.Image -> list (list point) -> M world Np.ndarray.

Local Abbreviation run :=
  (process_segmentation resample convert_pixels findContours moments predict).
Local Abbreviation points_in := (extract_points findContours moments).
Local Abbreviation region := (replace_region resample convert_pixels).
Local Abbreviation stages :=
  (body_stages resample convert_pixels findContours moments SAM world predict).
Local Abbreviation to_try :=
  (run_try resample convert_pixels findContours moments SAM world predict).
Local Abbreviation missing :=
  (run_missing resample convert_pixels findContours moments SAM world predict).
Local Abbreviation by_item :=
  (run_item resample convert_pixels findContours moments SAM world predict).
Local Abbreviation raises :=
  (run_raises resample convert_pixels findContours moments SAM world predict).

Lemma refine_with_model (self : ImageSegmentationApp SAM) (m : SAM)
  (original : PIL.Image) (pts : list point) (dm : PIL.Image) (w : world) :
  model self = Some m -> model_available self = true ->
  refine predict self original pts dm w =
    match predict m original [pts] w with
    | (Ok arr, w1) =>
        match mask_of_output arr with
        | Ok sm => (Ok (sm, model_message_ok), w1)
        | Raise e => (Raise e, w1)
        end
    | (Raise e, w1) => (Raise e, w1)
    end.
Proof.
  intros Hm Ha. unfold refine, bindM, lift, ret. rewrite Hm, Ha.
  destruct (predict m original [pts] w) as [[arr|e] w1]; [|reflexivity].
  destruct (mask_of_output arr); reflexivity.
Qed.

(** X5.  With a model, the network is called only once points have been
    extracted, with the original image as uploaded and one prompt set
    holding all the points.  The state after the run is the state that
    this call left, also when the call raises, in which case the run is a
    failure with the call's error; without points, or with an unusable
    layer, the state is untouched. *)
Theorem X5_network_call (self : ImageSegmentationApp SAM) (m : SAM)
  (ie : EditorValue) (original replacement : PIL.Image) (w : world) :
  model self = Some m -> model_available self = true ->
  background ie = Some original ->
  match drawn_mask_of ie with
  | Ok dm =>
      match points_in dm with
      | Ok (p :: ps) =>
          snd (run self ie (Some replacement) w)
          = snd (predict m original [p :: ps] w) /\
          forall e,
            fst (predict m original [p :: ps] w) = Raise e ->
            fst (run self ie (Some replacement) w)
            = Ok (Failure (error_message e))
      | _ => snd (run self ie (Some replacement) w) = w
      end
  | Raise _ => snd (run self ie (Some replacement) w) = w
  end.
Proof.
  intros Hm Ha Hb.
  rewrite (to_try self ie original replacement w Hb), stages.
  destruct (drawn_mask_of ie) as [dm|e]; [|reflexivity].
  destruct (points_in dm) as [[|p ps]|e]; try reflexivity.
  rewrite (refine_with_model self m original (p :: ps) dm w Hm Ha).
  destruct (predict m original [p :: ps] w) as [[arr|e] w1]; simpl.
  - split; [|intros e H; discriminate].
    destruct (mask_of_output arr) as [sm|e]; [|reflexivity].
    destruct (region original replacement sm); reflexivity.
  - split; [reflexivity|]. intros e' H; inversion H; reflexivity.
Qed.

(** X6.  With a model, the drawn mask reaches the refined mask and the
    result only through its points: two drawings over the same original
    that yield the same points give the same refined mask, result image,
    message and final state. *)
Theorem X6_model_path_uses_points_only (self : ImageSegmentationApp SAM)
  (m : SAM) (ie1 ie2 : EditorValue) (original replacement dm1 dm2 : PIL.Image)
  (p : point) (ps : list point) (w : world) :
  model self = Some m -> model_available self = true ->
  background ie1 = Some original -> background ie2 = Some original ->
  drawn_mask_of ie1 = Ok dm1 -> drawn_mask_of ie2 = Ok dm2 ->
  points_in dm1 = Ok (p :: ps) -> points_in dm2 = Ok (p :: ps) ->
  exists o1 o2 w',
    run self ie1 (Some replacement) w = (Ok o1, w') /\
    run self ie2 (Some replacement) w = (Ok o2, w') /\
    out_sam_mask o1 = out_sam_mask o2 /\
    out_result_image o1 = out_result_image o2 /\
    out_message o1 = out_message o2.
Proof.
  intros Hm Ha Hb1 Hb2 Hd1 Hd2 Hp1 Hp2.
  rewrite (to_try self ie1 original replacement w Hb1), stages.
  rewrite (to_try self ie2 original replacement w Hb2), stages.
  rewrite Hd1, Hd2, Hp1, Hp2.
  rewrite !(refine_with_model self m original (p :: ps) _ w Hm Ha).
  destruct (predict m original [p :: ps] w) as [[arr|e] w1];
    [|do 3 eexists; repeat split; reflexivity].
  destruct (mask_of_output arr) as [sm|e];
    [|do 3 eexists; repeat split; reflexivity].
  destruct (region original replacement sm);
    do 3 eexists; repeat split; reflexivity.
Qed.

(** X12.  The shape of every outcome.  The message always leads with a
    severity marker.  The drawn mask and the refined mask are present
    together, exactly when the message is not an error, and the result
    image is then present too.  A warning means that no model was used and
    that the refined mask is the drawn mask itself; the success marker
    means that a model was held and available. *)
Theorem X12_outcome_shape (self : ImageSegmentationApp SAM)
  (ie : EditorArg) (repl : option PIL.Image) (w w' : world) (o : outputs) :
  run self ie repl w = (Ok o, w') ->
  severity_of (out_message o) <> SevNone /\
  (severity_of (out_message o) = SevError <-> out_drawn_mask o = None) /\
  (out_drawn_mask o = None <-> out_sam_mask o = None) /\
  (out_sam_mask o <> None -> out_result_image o <> None) /\
  (severity_of (out_message o) = SevWarning ->
     model_unavailable self /\ out_sam_mask o = out_drawn_mask o) /\
  (severity_of (out_message o) = SevSuccess -> ~ model_unavailable self).
Proof.
  assert (Hfail : forall msg,
    severity_of msg = SevError ->
    severity_of (out_message (Failure msg)) <> SevNone /\
    (severity_of (out_message (Failure msg)) = SevError
       <-> out_drawn_mask (Failure msg) = None) /\
    (out_drawn_mask (Failure msg) = None <-> out_sam_mask (Failure msg) = None) /\
    (out_sam_mask (Failure msg) <> None ->
       out_result_image (Failure msg) <> None) /\
    (severity_of (out_message (Failure msg)) = SevWarning ->
       model_unavailable self /\
       out_sam_mask (Failure msg) = out_drawn_mask (Failure msg)) /\
    (severity_of (out_message (Failure msg)) = SevSuccess ->
       ~ model_unavailable self)).
  { intros msg Hs. simpl. rewrite Hs.
    repeat split; intros; try reflexivity; try discriminate;
      try contradiction; try assumption. }
  destruct (getitem_background ie) as [[original|]|e0] eqn:Hb;
    [destruct repl as [replacement|]| |].
  - rewrite (by_item self ie _ _ w Hb), stages.
    destruct (drawn_mask_of ie) as [dm|e];
      [|intros H; inversion H; subst; apply Hfail; reflexivity].
    destruct (points_in dm) as [[|p ps]|e];
      try (intros H; inversion H; subst; apply Hfail; reflexivity).
    + intros H; inversion H; subst. simpl.
      repeat split; intros; try reflexivity; try discriminate;
        try contradiction.
    + unfold refine, bindM, lift, ret.
      destruct (model self) as [m|] eqn:Hm;
        [destruct (model_available self) eqn:Ha|].
      * destruct (predict m original [p :: ps] w) as [[arr|e] w1];
          [|intros H; inversion H; subst; apply Hfail; reflexivity].
        destruct (mask_of_output arr) as [sm|e];
          [|intros H; inversion H; subst; apply Hfail; reflexivity].
        simpl. destruct (region original replacement sm);
          [|intros H; inversion H; subst; apply Hfail; reflexivity].
        intros H; inversion H; subst. simpl.
        repeat split; intros; try discriminate.
        intros [Hu | Hu]; congruence.
      * simpl. destruct (region original replacement dm);
          [|intros H; inversion H; subst; apply Hfail; reflexivity].
        intros H; inversion H; subst. simpl.
        repeat split; intros; try discriminate; try reflexivity.
        right; exact Ha.
      * simpl. destruct (region original replacement dm);
          [|intros H; inversion H; subst; apply Hfail; reflexivity].
        intros H; inversion H; subst. simpl.
        repeat split; intros; try discriminate; try reflexivity.
        left; exact Hm.
  - rewrite (by_item self ie _ _ w Hb).
    intros H; inversion H; subst. apply Hfail; reflexivity.
  - rewrite (by_item self ie _ _ w Hb).
    intros H; inversion H; subst. apply Hfail; reflexivity.
  - rewrite (raises self ie _ w _ Hb). intros H; inversion H.
Qed.

(** X14.  The replacement image reaches nothing but the result: for two
    replacements, the rest of the inputs being the same, the final state is
    the same, and two outcomes that both carry a drawn mask carry the same
    drawn mask, the same refined mask and the same message. *)
Theorem X14_replacement_reaches_result_only (self : ImageSegmentationApp SAM)
  (ie : EditorArg) (r1 r2 : PIL.Image) (w : world) :
  snd (run self ie (Some r1) w) = snd (run self ie (Some r2) w) /\
  forall o1 o2,
    fst (run self ie (Some r1) w) = Ok o1 ->
    fst (run self ie (Some r2) w) = Ok o2 ->
    out_drawn_mask o1 <> None -> out_drawn_mask o2 <> None ->
    out_drawn_mask o1 = out_drawn_mask o2 /\
    out_sam_mask o1 = out_sam_mask o2 /\
    out_message o1 = out_message o2.
Proof.
  destruct (getitem_background ie) as [[original|]|e0] eqn:Hb.
  - rewrite (by_item self ie _ _ w Hb), stages.
    rewrite (by_item self ie _ _ w Hb), stages.
    destruct (drawn_mask_of ie) as [dm|e];
      [|split; [reflexivity|]; simpl; intros o1 o2 H1 H2 N1;
        inversion H1; subst; contradiction].
    destruct (points_in dm) as [[|p ps]|e];
      try (split; [reflexivity|]; simpl; intros o1 o2 H1 H2 N1;
           inversion H1; subst; contradiction).
    destruct (refine predict self original (p :: ps) dm w)
      as [[[sm msg]|e] w1];
      [|split; [reflexivity|]; simpl; intros o1 o2 H1 H2 N1;
        inversion H1; subst; contradiction].
    destruct (region original r1 sm), (region original r2 sm);
      (split; [reflexivity|]); simpl; intros o1 o2 H1 H2 N1 N2;
      inversion H1; inversion H2; subst; simpl in *;
      try contradiction; auto.
  - rewrite !(by_item self ie _ _ w Hb).
    split; [reflexivity|]. simpl. intros o1 o2 H1 H2 N1.
    inversion H1; subst; contradiction.
  - rewrite !(raises self ie _ w _ Hb).
    split; [reflexivity|]. simpl. intros o1 o2 H1. discriminate.
Qed.

(** ** Validation and the catch-all (lines 30-31 and 83-86) *)

(** X15.  Inside the [try] nothing escapes.  Once line 30 has read the
    background item, the function returns its four outputs.  When a step
    of the [try] body raises, they are three empty image slots and the
    message "**❌ Error:** Segmentation error: " followed by the
    description of the exception, marked as an error, and the state is the
    one that the failing step left.  A dict without the "layers" key is
    such a case. *)
Theorem X15_try_failures_are_caught (self : ImageSegmentationApp SAM)
  (ie : EditorArg) (item repl : option PIL.Image) (w : world) :
  getitem_background ie = Ok item ->
  (exists o w', run self ie repl w = (Ok o, w')) /\
  (forall original replacement e w1,
     item = Some original -> repl = Some replacement ->
     try_body resample convert_pixels findContours moments predict
       self ie original replacement w = (Raise e, w1) ->
     run self ie repl w
     = (Ok {| out_drawn_mask := None; out_sam_mask := None;
              out_result_image := None;
              out_message := "**❌ Error:** Segmentation error: " ++ e |},
        w1) /\
     severity_of ("**❌ Error:** Segmentation error: " ++ e) = SevError) /\
  (forall original replacement e,
     item = Some original -> repl = Some replacement ->
     getitem_layers ie = Raise e ->
     run self ie repl w
     = (Ok {| out_drawn_mask := None; out_sam_mask := None;
              out_result_image := None;
              out_message := "**❌ Error:** Segmentation error: " ++ e |},
        w)).
Proof.
  intros Hb. rewrite (by_item self ie item repl w Hb). split; [|split].
  - destruct item as [original|]; [destruct repl as [replacement|]|];
      try (do 2 eexists; reflexivity).
    destruct (try_body resample convert_pixels findContours moments predict
                self ie original replacement w) as [[o|e] w1];
      do 2 eexists; reflexivity.
  - intros original replacement e w1 -> -> Hbody. rewrite Hbody.
    split; reflexivity.
  - intros original replacement e -> -> Hl. rewrite stages.
    unfold drawn_mask_of. rewrite Hl. reflexivity.
Qed.

(** X16.  On a dict that carries the "background" key, a null background
    or a missing replacement image gives the failure "Please upload both
    images." with the three image slots empty.  Nothing else is computed:
    the outcome is the same for every contour finder, moment function,
    resampler and network, the state of the network is left as it was, and
    the layers are not read. *)
Theorem X16_missing_image (self : ImageSegmentationApp SAM)
  (ie : EditorArg) (item repl : option PIL.Image) (w : world) :
  getitem_background ie = Ok item ->
  item = None \/ repl = None ->
  run self ie repl w =
    (Ok {| out_drawn_mask := None; out_sam_mask := None;
           out_result_image := None;
           out_message := "**❌ Error:** Please upload both images." |}, w)
  /\ severity_of "**❌ Error:** Please upload both images." = SevError.
Proof.
  intros Hb H. split; [|reflexivity].
  rewrite (by_item self ie item repl w Hb).
  destruct H as [-> | ->]; [reflexivity|]. destruct item; reflexivity.
Qed.

(** ** Post-processing on unusual shapes (lines 72-74) *)

Lemma squeeze_unit_axes (sh : list nat) :
  Forall (fun n => n = 1%nat) sh ->
  filter (fun n => negb (Nat.eqb n 1)) sh = [].
Proof.
  induction 1 as [|n sh Hn _ IH]; [reflexivity|].
  simpl. rewrite Hn. simpl. exact IH.
Qed.

Lemma mask_of_output_unit_axes (arr : Np.ndarray) :
  Forall (fun n => n = 1%nat) (Np.shape arr) ->
  mask_of_output arr = Raise "tuple index out of range".
Proof.
  intros H. unfold mask_of_output, Np.fromarray, Np.astype_uint8, Np.mul_255,
    Np.squeeze.
  cbn [Np.shape8 Np.shape]. rewrite (squeeze_unit_axes _ H). reflexivity.
Qed.

Lemma mask_of_output_row (arr : Np.ndarray) (wd : nat) :
  Np.shape arr = [1; 1; wd]%nat -> (2 <= wd)%nat ->
  exists mask, mask_of_output arr = Ok mask /\ PIL.size mask = (1, wd)%nat.
Proof.
  intros Hs Hw. unfold mask_of_output, Np.fromarray, Np.astype_uint8,
    Np.mul_255, Np.squeeze.
  cbn [Np.shape8 Np.shape]. rewrite Hs. simpl.
  destruct (Nat.eqb_spec wd 1); [lia|]. simpl.
  eexists. split; reflexivity.
Qed.

Lemma mask_of_output_stack (arr : Np.ndarray) (n h wd : nat) :
  Np.shape arr = [n; h; wd] ->
  (2 <= n)%nat -> (2 <= h)%nat -> (5 <= wd)%nat ->
  mask_of_output arr =
    Raise ("Cannot handle this data type: (1, 1" ++ Np.show_dims [wd]
           ++ "), |u1").
Proof.
  intros Hs Hn Hh Hw. unfold mask_of_output, Np.fromarray, Np.astype_uint8,
    Np.mul_255, Np.squeeze.
  cbn [Np.shape8 Np.shape]. rewrite Hs.
  cbn [filter].
  destruct (Nat.eqb_spec n 1); [lia|].
  destruct (Nat.eqb_spec h 1); [lia|].
  destruct (Nat.eqb_spec wd 1); [lia|].
  cbn [negb skipn].
  destruct wd as [|[|[|[|[|k]]]]]; try lia. reflexivity.
Qed.

Lemma run_with_model (self : ImageSegmentationApp SAM) (m : SAM)
  (ie : EditorValue) (original replacement dm : PIL.Image) (p : point)
  (ps : list point) (arr : Np.ndarray) (w w1 : world) :
  model self = Some m -> model_available self = true ->
  background ie = Some original ->
  drawn_mask_of ie = Ok dm ->
  points_in dm = Ok (p :: ps) ->
  predict m original [p :: ps] w = (Ok arr, w1) ->
  run self ie (Some replacement) w =
    match mask_of_output arr with
    | Ok sm =>
        match region original replacement sm with
        | Ok res => (Ok (Success dm sm res model_message_ok), w1)
        | Raise e => (Ok (Failure (error_message e)), w1)
        end
    | Raise e => (Ok (Failure (error_message e)), w1)
    end.
Proof.
  intros Hm Ha Hb Hd Hp Hpred.
  rewrite (to_try self ie original replacement w Hb), stages, Hd, Hp.
  rewrite (refine_with_model self m original (p :: ps) dm w Hm Ha), Hpred.
  destruct (mask_of_output arr) as [sm|e]; [|reflexivity].
  destruct (region original replacement sm); reflexivity.
Qed.

(** X7.  [np.squeeze] removes every axis of length one, not only the
    leading one.  For an original one pixel high, whose network output has
    shape (1, 1, width), the model path therefore never succeeds: for a
    single pixel [Image.fromarray] fails on [shape[1]], and for a wider row
    the mask comes out as a column of size (1, width), which does not fit
    the original of size (width, 1). *)
Theorem X7_one_pixel_high_original (self : ImageSegmentationApp SAM) (m : SAM)
  (ie : EditorValue) (original replacement dm : PIL.Image) (p : point)
  (ps : list point) (arr : Np.ndarray) (wd : nat) (w w1 : world) :
  model self = Some m -> model_available self = true ->
  background ie = Some original ->
  drawn_mask_of ie = Ok dm ->
  points_in dm = Ok (p :: ps) ->
  predict m original [p :: ps] w = (Ok arr, w1) ->
  PIL.size original = (wd, 1)%nat ->
  Np.shape arr = [1; 1; wd]%nat ->
  (wd = 1%nat ->
     run self ie (Some replacement) w
     = (Ok (Failure (error_message "tuple index out of range")), w1)) /\
  ((2 <= wd)%nat ->
     (exists mask,
        mask_of_output arr = Ok mask /\ PIL.size mask = (1, wd)%nat) /\
     exists e,
       run self ie (Some replacement) w
       = (Ok (Failure (error_message e)), w1)).
Proof.
  intros Hm Ha Hb Hd Hp Hpred Hsz Hsh.
  rewrite (run_with_model self m ie original replacement dm p ps arr w w1
             Hm Ha Hb Hd Hp Hpred).
  split.
  - intros ->. rewrite (mask_of_output_unit_axes arr); [reflexivity|].
    rewrite Hsh. repeat constructor.
  - intros Hw. destruct (mask_of_output_row arr wd Hsh Hw) as (mask & Hmask & Hms).
    split; [exists mask; auto|]. rewrite Hmask.
    destruct (region_mask_size resample convert_pixels original replacement mask)
      as [e He].
    + rewrite Hms, Hsz. intros E; inversion E; lia.
    + exists e. rewrite He. reflexivity.
Qed.

(** X8.  The post-processing handles one mask.  When the network returns
    several masks of an image at least two pixels high and five wide, the
    stack of shape (n, height, width) is handed to [Image.fromarray] as it
    is, which refuses it, and the run is a failure that carries its
    [TypeError]. *)
Theorem X8_several_masks (self : ImageSegmentationApp SAM) (m : SAM)
  (ie : EditorValue) (original replacement dm : PIL.Image) (p : point)
  (ps : list point) (arr : Np.ndarray) (n h wd : nat) (w w1 : world) :
  model self = Some m -> model_available self = true ->
  background ie = Some original ->
  drawn_mask_of ie = Ok dm ->
  points_in dm = Ok (p :: ps) ->
  predict m original [p :: ps] w = (Ok arr, w1) ->
  Np.shape arr = [n; h; wd] ->
  (2 <= n)%nat -> (2 <= h)%nat -> (5 <= wd)%nat ->
  run self ie (Some replacement) w
  = (Ok (Failure
           (error_message
              ("Cannot handle this data type: (1, 1" ++ Np.show_dims [wd]
               ++ "), |u1"))), w1).
Proof.
  intros Hm Ha Hb Hd Hp Hpred Hsh Hn Hh Hw.
  rewrite (run_with_model self m ie original replacement dm p ps arr w w1
             Hm Ha Hb Hd Hp Hpred).
  rewrite (mask_of_output_stack arr n h wd Hsh Hn Hh Hw). reflexivity.
Qed.

End Dataflow.

(** ** The raster that compositing writes (lines 77-80) *)

Lemma overlay_Forall {A B : Type} (P : A -> Prop) (f : A -> B -> A)
  (d : list A) (s : list B) :
  Forall P d -> (forall a b, P a -> In b s -> P (f a b)) ->
  Forall P (overlay f d s).
Proof.
  revert s; induction d as [|a d IH]; intros [|b s] Hd Hf; simpl; auto.
  inversion Hd; subst. constructor.
  - apply Hf; [assumption | left; reflexivity].
  - apply IH; [assumption|]. intros a' b' Ha Hb. apply Hf; [assumption|].
    right; exact Hb.
Qed.

Lemma zip_rows_In (src mask : list (list PIL.pixel))
  (zrow : list (PIL.pixel * PIL.pixel)) (sm : PIL.pixel * PIL.pixel) :
  In zrow (PIL.zip_rows src mask) -> In sm zrow ->
  (exists srow, In srow src /\ In (fst sm) srow) /\
  (exists mrow, In mrow mask /\ In (snd sm) mrow).
Proof.
  unfold PIL.zip_rows. intros Hz Hs.
  apply in_map_iff in Hz. destruct Hz as ([srow mrow] & <- & Hrm).
  simpl in Hs. destruct sm as [s m].
  split.
  - exists srow. split; [eapply in_combine_l; exact Hrm|].
    eapply in_combine_l; exact Hs.
  - exists mrow. split; [eapply in_combine_r; exact Hrm|].
    eapply in_combine_r; exact Hs.
Qed.

Lemma well_formed_In (im : PIL.Image) (row : list PIL.pixel) (px : PIL.pixel) :
  PIL.well_formed im = true -> In row (PIL.pixels im) -> In px row ->
  PIL.pixel_ok (PIL.mode im) px = true.
Proof.
  unfold PIL.well_formed, PIL.rows_ok. intros W Hr Hp.
  apply andb_true_iff in W. destruct W as [_ W].
  rewrite forallb_forall in W. specialize (W row Hr).
  apply andb_true_iff in W. destruct W as [_ W].
  rewrite forallb_forall in W. apply W. exact Hp.
Qed.

Lemma pixel_ok_bytes (m : PIL.pil_mode) (px : PIL.pixel) (v : Z) :
  PIL.pixel_ok m px = true -> In v px -> 0 <= v <= 255.
Proof.
  unfold PIL.pixel_ok. intros H Hv.
  apply andb_true_iff in H. destruct H as [_ H].
  rewrite forallb_forall in H. specialize (H v Hv).
  unfold PIL.byte_ok in H. lia.
Qed.

Lemma BLEND8_byte (m o i : Z) : PIL.byte_ok (PIL.BLEND8 m o i) = true.
Proof.
  unfold PIL.BLEND8, PIL.uint8, PIL.byte_ok.
  pose proof (Z.mod_pos_bound (PIL.DIV255 (o * (255 - m) + i * m)) 256
                ltac:(lia)).
  lia.
Qed.

Lemma BLEND8_between (m o i : Z) :
  0 <= m <= 255 -> 0 <= o <= 255 -> 0 <= i <= 255 ->
  Z.min o i <= PIL.BLEND8 m o i <= Z.max o i.
Proof.
  intros Hm Ho Hi.
  pose proof (blend_argument_range m o i Hm Ho Hi) as Ha.
  destruct (DIV255_rounds _ Ha) as [Hr Hn].
  unfold PIL.BLEND8, PIL.uint8. rewrite Z.mod_small by lia.
  assert (255 * Z.min o i <= o * (255 - m) + i * m <= 255 * Z.max o i) by nia.
  lia.
Qed.

(** A blank mask leaves every destination pixel as it is. *)
Lemma paste_rows_blank (f : PIL.pixel -> PIL.pixel * PIL.pixel -> PIL.pixel)
  (dst src mask : list (list PIL.pixel)) :
  (forall drow d mrow sm,
     In drow dst -> In d drow -> In mrow mask -> In (snd sm) mrow ->
     f d sm = d) ->
  PIL.paste_rows f dst src mask = dst.
Proof.
  intros Hf. unfold PIL.paste_rows.
  apply overlay_keeps. intros drow zrow Hd Hz.
  apply overlay_keeps. intros d sm Hdd Hsm.
  destruct (zip_rows_In src mask zrow sm Hz Hsm) as [_ (mrow & Hm & Hs)].
  eapply Hf; eauto.
Qed.

Section Raster.

Variable resample : PIL.Image -> nat * nat -> result (list (list PIL.pixel)).
Variable convert_pixels :
  PIL.Image -> PIL.pil_mode -> result (list (list PIL.pixel)).

Lemma paste_source (self im mask out : PIL.Image) :
  PIL.paste convert_pixels self im mask = Ok out ->
  exists src, PIL.ImagingPaste self src mask = Ok out.
Proof.
  unfold PIL.paste.
  destruct (if PIL.mode_eqb (PIL.mode self) (PIL.mode im) then Ok im
            else if (PIL.mode_eqb (PIL.mode self) PIL.M_RGB
                     && (PIL.mode_eqb (PIL.mode im) PIL.M_LA
                         || PIL.mode_eqb (PIL.mode im) PIL.M_RGBA))%bool
              then Ok im
            else PIL.convert convert_pixels im (PIL.mode self)) as [src|e];
    simpl; [eauto | discriminate].
Qed.

Lemma ImagingPaste_blank (imOut imIn imMask out : PIL.Image) :
  PIL.well_formed imOut = true -> blank_mask imMask ->
  PIL.ImagingPaste imOut imIn imMask = Ok out -> out = imOut.
Proof.
  intros W Hblank. unfold PIL.ImagingPaste.
  destruct (negb (Nat.eqb _ _)); [discriminate|].
  destruct (negb (PIL.size_eqb _ _)); [discriminate|]. cbv zeta.
  assert (H1 : forall src,
            PIL.paste_rows PIL.paste_mask_1 (PIL.pixels imOut) src
              (PIL.pixels imMask) = PIL.pixels imOut).
  { intros src. apply paste_rows_blank. intros drow d mrow sm _ _ Hm Hs.
    unfold PIL.paste_mask_1. rewrite (Hblank mrow (snd sm) Hm Hs).
    reflexivity. }
  assert (HL : forall src,
            PIL.paste_rows PIL.paste_mask_L (PIL.pixels imOut) src
              (PIL.pixels imMask) = PIL.pixels imOut).
  { intros src. apply paste_rows_blank. intros drow d mrow sm Hd Hdd Hm Hs.
    unfold PIL.paste_mask_L. rewrite (Hblank mrow (snd sm) Hm Hs).
    apply overlay_keeps. intros a b Ha _. apply BLEND8_zero.
    eapply pixel_ok_bytes; [eapply well_formed_In; eauto | exact Ha]. }
  destruct (PIL.mode imMask); try discriminate;
    intros H; inversion H; subst; apply image_ext; simpl;
    rewrite ?H1, ?HL; reflexivity.
Qed.

Lemma region_blank_mask (original replacement mask out : PIL.Image) :
  PIL.well_formed original = true ->
  blank_mask mask ->
  replace_region resample convert_pixels original replacement mask = Ok out ->
  out = original.
Proof.
  intros W Hblank. unfold replace_region, PIL.composite.
  destruct (PIL.resize resample replacement (PIL.size original))
    as [resized|e]; simpl; [|discriminate].
  intros H. apply paste_source in H. destruct H as [src H].
  eapply ImagingPaste_blank; eauto.
Qed.

(** X9.  Where nothing is selected nothing is replaced: when the mask is
    zero everywhere and compositing succeeds, the result is the original
    itself, whatever the replacement image, its size and its mode. *)
Theorem X9_blank_mask_keeps_original
  (original replacement mask out : PIL.Image) :
  PIL.well_formed original = true ->
  blank_mask mask ->
  replace_region resample convert_pixels original replacement mask = Ok out ->
  out = original.
Proof.
  intros W Hblank Hreg. unfold replace_region, PIL.composite in Hreg.
  destruct (PIL.resize resample replacement (PIL.size original))
    as [resized|e]; simpl in Hreg; [|discriminate].
  destruct (paste_source _ _ _ _ Hreg) as [src Hpaste].
  exact (ImagingPaste_blank original src mask out W Hblank Hpaste).
Qed.

Lemma getband_range (im : PIL.Image) (x y b : nat) :
  PIL.well_formed im = true ->
  (x < PIL.width im)%nat -> (y < PIL.height im)%nat ->
  (b < PIL.bands (PIL.mode im))%nat ->
  0 <= PIL.getband im x y b <= 255.
Proof.
  unfold PIL.width, PIL.height. intros W Hx Hy Hb.
  destruct (rows_ok_spec _ _ _ W) as [_ R].
  destruct (R y Hy) as [_ P].
  destruct (pixel_ok_spec _ _ (P x Hx)) as [_ V].
  apply V. exact Hb.
Qed.

(** X11.  Blending never overshoots: under the conditions of a regular
    composite (a mask of mode L and of the original's size, a replacement of
    the original's mode), every band of every result pixel lies between the
    original's value and the resized replacement's value. *)
Theorem X11_composite_stays_between
  (original replacement mask resized : PIL.Image) :
  resample_sound resample ->
  PIL.well_formed original = true ->
  PIL.well_formed replacement = true ->
  PIL.well_formed mask = true ->
  PIL.mode replacement = PIL.mode original ->
  PIL.mode mask = PIL.M_L ->
  PIL.size mask = PIL.size original ->
  PIL.resize resample replacement (PIL.size original) = Ok resized ->
  exists out,
    replace_region resample convert_pixels original replacement mask
      = Ok out /\
    forall x y b,
      (x < PIL.width original)%nat -> (y < PIL.height original)%nat ->
      (b < PIL.bands (PIL.mode original))%nat ->
      Z.min (PIL.getband original x y b) (PIL.getband resized x y b)
      <= PIL.getband out x y b
      <= Z.max (PIL.getband original x y b) (PIL.getband resized x y b).
Proof.
  intros Hsound Wo Wr Wm Mr Mm Sm Hres.
  destruct (resize_size_mode resample _ _ _ Hres) as [Sr Mr'].
  pose proof (resize_well_formed resample _ _ _ Hsound Wr Hres) as Wz.
  assert (Mz : PIL.mode resized = PIL.mode original) by congruence.
  assert (Smz : PIL.size mask = PIL.size resized) by congruence.
  unfold replace_region, PIL.composite. rewrite Hres. cbn [bind].
  rewrite (paste_same_mode_L convert_pixels original resized mask Mz Mm Smz).
  eexists. split; [reflexivity|].
  intros x y b Hx Hy Hb.
  destruct (paste_L_band original resized mask x y b Wo Wz Wm Mz Mm Sr Sm
              Hx Hy Hb) as [_ E].
  match goal with
  | |- _ <= PIL.getband ?o x y b <= _ =>
      assert (Eo : PIL.getband o x y b =
                   PIL.BLEND8 (PIL.getband mask x y 0)
                     (PIL.getband original x y b)
                     (PIL.getband resized x y b)) by exact E
  end.
  rewrite Eo. apply BLEND8_between.
  - apply getband_range; unfold PIL.width, PIL.height;
      rewrite ?Sm, ?Mm; try assumption. simpl; lia.
  - apply getband_range; assumption.
  - apply getband_range; unfold PIL.width, PIL.height;
      rewrite ?Sr, ?Mz; assumption.
Qed.

Lemma pixel_ok_blend (m : PIL.pil_mode) (a : Z) (d s : PIL.pixel) :
  PIL.pixel_ok m d = true ->
  PIL.pixel_ok m (overlay (PIL.BLEND8 a) d s) = true.
Proof.
  unfold PIL.pixel_ok. intros H. apply andb_true_iff in H.
  destruct H as [Hl Hb]. rewrite overlay_length, Hl. simpl.
  apply forallb_forall. apply Forall_forall.
  apply overlay_Forall.
  - apply Forall_forall. apply forallb_forall. exact Hb.
  - intros v b _ _. apply BLEND8_byte.
Qed.

Lemma ImagingPaste_well_formed (imOut imIn imMask out : PIL.Image) :
  PIL.well_formed imOut = true ->
  (forall row px, In row (PIL.pixels imIn) -> In px row ->
     PIL.pixel_ok (PIL.mode imOut)
       (PIL.source_pixel (PIL.mode imOut) (PIL.mode imIn) px) = true) ->
  PIL.ImagingPaste imOut imIn imMask = Ok out ->
  PIL.well_formed out = true.
Proof.
  intros W Hsrc. unfold PIL.ImagingPaste.
  destruct (negb (Nat.eqb _ _)); [discriminate|].
  destruct (negb (PIL.size_eqb _ _)); [discriminate|]. cbv zeta.
  set (src_rows := map (map (PIL.source_pixel (PIL.mode imOut) (PIL.mode imIn)))
                       (PIL.pixels imIn)).
  assert (Hany : forall f,
    (forall d sm srow,
       PIL.pixel_ok (PIL.mode imOut) d = true ->
       In srow src_rows -> In (fst sm) srow ->
       PIL.pixel_ok (PIL.mode imOut) (f d sm) = true) ->
    PIL.rows_ok (PIL.mode imOut) (PIL.size imOut)
      (PIL.paste_rows f (PIL.pixels imOut) src_rows (PIL.pixels imMask))
    = true).
  { intros f Hf. unfold PIL.well_formed, PIL.rows_ok in *.
    apply andb_true_iff in W. destruct W as [Wl Wr].
    rewrite paste_rows_length, Wl. simpl.
    apply forallb_forall. apply Forall_forall.
    unfold PIL.paste_rows. apply overlay_Forall.
    - apply Forall_forall. apply forallb_forall. exact Wr.
    - intros drow zrow Hd Hz.
      apply andb_true_iff in Hd. destruct Hd as [Hdl Hdp].
      rewrite overlay_length, Hdl. simpl.
      apply forallb_forall. apply Forall_forall. apply overlay_Forall.
      + apply Forall_forall. apply forallb_forall. exact Hdp.
      + intros d sm Hdok Hsm.
        destruct (zip_rows_In src_rows (PIL.pixels imMask) zrow sm Hz Hsm)
          as [(srow & Hsr & Hs) _].
        eapply Hf; eauto. }
  assert (Hview : forall srow s, In srow src_rows -> In s srow ->
            PIL.pixel_ok (PIL.mode imOut) s = true).
  { intros srow s Hsr Hs. unfold src_rows in Hsr.
    apply in_map_iff in Hsr. destruct Hsr as (row & <- & Hrow).
    apply in_map_iff in Hs. destruct Hs as (px & <- & Hpx).
    eapply Hsrc; eauto. }
  assert (H1 : PIL.rows_ok (PIL.mode imOut) (PIL.size imOut)
                 (PIL.paste_rows PIL.paste_mask_1 (PIL.pixels imOut) src_rows
                    (PIL.pixels imMask)) = true).
  { apply (Hany PIL.paste_mask_1). intros d sm srow Hd Hsr Hs.
    unfold PIL.paste_mask_1.
    destruct (Z.eqb (PIL.matte (snd sm)) 0); [exact Hd|].
    exact (Hview srow (fst sm) Hsr Hs). }
  assert (HL : PIL.rows_ok (PIL.mode imOut) (PIL.size imOut)
                 (PIL.paste_rows PIL.paste_mask_L (PIL.pixels imOut) src_rows
                    (PIL.pixels imMask)) = true).
  { apply (Hany PIL.paste_mask_L). intros d sm srow Hd Hsr Hs.
    unfold PIL.paste_mask_L. apply pixel_ok_blend. exact Hd. }
  destruct (PIL.mode imMask); try discriminate;
    intros H; injection H as <-; first [exact H1 | exact HL].
Qed.

(** X13.  Compositing keeps rasters well formed: when the original and the
    replacement are well-formed images and the resampling filter and the
    mode conversion return rasters of the size and mode asked of them, a
    result, whenever there is one, is a well-formed image of the original's
    size and mode, whatever the mask holds. *)
Theorem X13_result_well_formed (original replacement mask out : PIL.Image) :
  resample_sound resample -> convert_sound convert_pixels ->
  PIL.well_formed original = true ->
  PIL.well_formed replacement = true ->
  replace_region resample convert_pixels original replacement mask = Ok out ->
  PIL.well_formed out = true /\
  PIL.size out = PIL.size original /\
  PIL.mode out = PIL.mode original.
Proof.
  intros Hrs Hcs Wo Wr Hreg.
  destruct (region_shape resample convert_pixels _ _ _ _ Hreg)
    as (_ & Hsz & Hmo).
  split; [|split; assumption].
  unfold replace_region, PIL.composite in Hreg.
  destruct (PIL.resize resample replacement (PIL.size original))
    as [resized|e] eqn:Hres; simpl in Hreg; [|discriminate].
  pose proof (resize_well_formed resample _ _ _ Hrs Wr Hres) as Wz.
  destruct (pasted_directly (PIL.mode original) (PIL.mode resized)) eqn:Hdir.
  - rewrite (paste_direct convert_pixels _ _ _ Hdir) in Hreg.
    eapply ImagingPaste_well_formed; [exact Wo | | exact Hreg].
    intros row px Hrow Hpx. apply source_pixel_ok; [exact Hdir|].
    eapply well_formed_In; eauto.
  - rewrite (paste_converted convert_pixels _ _ _ Hdir) in Hreg.
    destruct (convert_pixels resized (PIL.mode original)) as [rows|e] eqn:Hc;
      [|discriminate].
    pose proof (Hcs resized (PIL.mode original) rows Wz Hc) as Wc.
    eapply ImagingPaste_well_formed; [exact Wo | | exact Hreg].
    simpl. intros row px Hrow Hpx. rewrite source_pixel_same.
    apply (well_formed_In
             {| PIL.mode := PIL.mode original; PIL.size := PIL.size resized;
                PIL.pixels := rows |} row px Wc Hrow Hpx).
Qed.

End Raster.

(** ** An empty segmentation (lines 66-80) *)

Lemma zero_scalar_byte (dt : Np.dtype) (x : Np.scalar) :
  zero_scalar x -> Np.to_uint8 (Np.mul_scalar dt x) = 0.
Proof. intros [-> | ->]; [destruct dt|]; reflexivity. Qed.

Lemma last_zeros (l : list Z) : Forall (fun v => v = 0) l -> last l 0 = 0.
Proof.
  induction 1 as [|v l Hv Hl IH]; [reflexivity|].
  simpl. destruct l; [exact Hv | exact IH].
Qed.

Lemma mask_of_output_zero (arr : Np.ndarray) (h w : nat) :
  Np.shape arr = [h; w] \/ Np.shape arr = [1%nat; h; w] ->
  (2 <= h)%nat -> (2 <= w)%nat ->
  Forall zero_scalar (Np.data arr) ->
  exists mask,
    mask_of_output arr = Ok mask /\ blank_mask mask /\
    PIL.size mask = (w, h) /\ PIL.mode mask = PIL.M_L.
Proof.
  intros Hshape Hh Hw Hz.
  assert (Hsq : Np.shape (Np.squeeze arr) = [h; w]).
  { destruct (squeeze_image_shape h w Hh Hw) as [E1 E2].
    unfold Np.squeeze; simpl. destruct Hshape as [-> | ->]; assumption. }
  unfold mask_of_output. rewrite (fromarray_two_axes _ h w Hsq).
  eexists. split; [reflexivity|]. split; [|split; reflexivity].
  unfold blank_mask. cbn [PIL.pixels]. intros row px Hrow Hpx.
  set (bs := map Np.to_uint8
               (map (Np.mul_scalar (Np.dtype_of (Np.squeeze arr)))
                    (Np.data (Np.squeeze arr)))) in *.
  assert (Hbs : Forall (fun v => v = 0) bs).
  { unfold bs. rewrite map_map. apply Forall_map.
    eapply Forall_impl; [|exact Hz].
    intros x Hx. apply zero_scalar_byte. exact Hx. }
  pose proof (chunks_Forall _ 1 (w * h) bs Hbs) as Hpx'.
  pose proof (chunks_Forall _ w h _ Hpx') as Hrows.
  rewrite Forall_forall in Hrows. specialize (Hrows row Hrow).
  rewrite Forall_forall in Hrows. specialize (Hrows px Hpx).
  apply last_zeros. exact Hrows.
Qed.

Section EmptySegmentation.

Variable resample : PIL.Image -> nat * nat -> result (list (list PIL.pixel)).
Variable convert_pixels :
  PIL.Image -> PIL.pil_mode -> result (list (list PIL.pixel)).
Variable findContours : Np.ndarray -> result (list Cv2.contour).
Variable moments : Cv2.contour -> Cv2.Moments.
Variable SAM : Type.
Variable world : Type.
Variable predict : SAM -> PIL.Image -> list (list point) -> M world Np.ndarray.

Local Abbreviation run :=
  (process_segmentation resample convert_pixels findContours moments predict).

(** X10.  When the network selects nothing, that is when its output, of the
    original's shape, holds only false, 0 or 0.0, the refined mask is zero
    everywhere and a successful run returns the original image itself as
    its result: no pixel of the replacement is used.  The run succeeds as
    soon as the replacement can be resized and is pasted without
    conversion. *)
Theorem X10_empty_segmentation_returns_original
  (self : ImageSegmentationApp SAM) (m : SAM) (ie : EditorValue)
  (original replacement dm : PIL.Image) (p : point) (ps : list point)
  (arr : Np.ndarray) (w w1 : world) :
  model self = Some m -> model_available self = true ->
  background ie = Some original ->
  drawn_mask_of ie = Ok dm ->
  extract_points findContours moments dm = Ok (p :: ps) ->
  predict m original [p :: ps] w = (Ok arr, w1) ->
  PIL.well_formed original = true ->
  Np.shape arr = [PIL.height original; PIL.width original]
  \/ Np.shape arr = [1%nat; PIL.height original; PIL.width original] ->
  (2 <= PIL.height original)%nat -> (2 <= PIL.width original)%nat ->
  Forall zero_scalar (Np.data arr) ->
  exists mask,
    mask_of_output arr = Ok mask /\ blank_mask mask /\
    (run self ie (Some replacement) w
     = (Ok (Success dm mask original model_message_ok), w1)
     \/ exists e,
          run self ie (Some replacement) w
          = (Ok (Failure (error_message e)), w1)) /\
    (forall resized,
       PIL.resize resample replacement (PIL.size original) = Ok resized ->
       pasted_directly (PIL.mode original) (PIL.mode replacement) = true ->
       run self ie (Some replacement) w
       = (Ok (Success dm mask original model_message_ok), w1)).
Proof.
  intros Hm Ha Hb Hd Hp Hpred Wo Hshape Hh Hw Hz.
  destruct (mask_of_output_zero arr _ _ Hshape Hh Hw Hz)
    as (mask & Hmask & Hblank & Hsz & Hmo).
  exists mask. split; [exact Hmask|]. split; [exact Hblank|].
  rewrite (run_with_model resample convert_pixels findContours moments SAM
             world predict self m ie original replacement dm p ps arr w w1
             Hm Ha Hb Hd Hp Hpred), Hmask.
  split.
  - destruct (replace_region resample convert_pixels original replacement mask)
      as [res|e] eqn:Hreg.
    + left. rewrite (region_blank_mask resample convert_pixels
                       original replacement mask res Wo Hblank Hreg).
      reflexivity.
    + right. exists e. reflexivity.
  - intros resized Hres Hdir.
    destruct (region_ok resample convert_pixels original replacement mask
                resized Hres Hdir) as [res Hreg].
    + rewrite Hsz. destruct original as [mo [wo ho] po]. reflexivity.
    + rewrite Hmo. reflexivity.
    + rewrite Hreg.
      rewrite (region_blank_mask resample convert_pixels
                 original replacement mask res Wo Hblank Hreg).
      reflexivity.
Qed.

End EmptySegmentation.

(** ** Further runs on concrete inputs *)

Module Checks.

Import Demo Cases.

Lemma blank_rows_blank : blank_mask (mask_of_rows [[0; 0]; [0; 0]]).
Proof.
  intros row px Hrow Hpx. simpl in Hrow.
  destruct Hrow as [<- | [<- | []]]; simpl in Hpx;
    destruct Hpx as [<- | [<- | []]]; reflexivity.
Qed.

(** The weights are missing: the app is built without a model, and two
    networks that answer differently give the same run. *)
Lemma X2_missing_weights_run :
  exists self,
    init load_counting_fails 0%nat = (Ok self, 1%nat) /\
    forall ie repl v,
      run_counting half_output self ie repl v
      = run_counting binary_output self ie repl v /\
      snd (run_counting half_output self ie repl v) = v /\
      forall o u, run_counting half_output self ie repl v = (Ok o, u) ->
        out_message o <> model_message_ok.
Proof.
  exact (X2_failed_load_never_calls_network nearest_rows no_convert
           external_contours contour_moments unit nat
           (predict_counting half_output) load_counting_fails
           (predict_counting binary_output)
           "sam2.1_t.pt: weights not found" 0%nat 1%nat eq_refl).
Defined.

(** An RGB layer has no alpha: its blue band becomes the drawn mask. *)
Lemma X4_rgb_layer_run :
  exists dm,
    drawn_mask_of (editor (rgb 3 3 red) blue_dot_layer) = Ok dm /\
    PIL.mode dm = PIL.M_L /\
    PIL.getband dm 1 1 0 = 255 /\ PIL.getband dm 0 0 0 = 0.
Proof.
  destruct (X4_drawn_mask_is_last_band (editor (rgb 3 3 red) blue_dot_layer)
              blue_dot_layer [] eq_refl)
    as (dm & Hdm & _ & _ & _ & Hmode & Hband).
  exists dm. split; [exact Hdm|].
  split; [apply Hmode; discriminate|].
  rewrite !Hband. split; reflexivity.
Defined.

(** One call of the counting network per run with points. *)
Lemma X5_one_call_run :
  snd (run_counting binary_output app_with_model
         (editor (rgb 2 2 red) centre_layer) (Some (rgb 2 2 blue)) 0%nat)
  = 1%nat.
Proof.
  exact (proj1 (X5_network_call nearest_rows no_convert external_contours
                  contour_moments unit nat (predict_counting binary_output)
                  app_with_model tt (editor (rgb 2 2 red) centre_layer)
                  (rgb 2 2 red) (rgb 2 2 blue) 0%nat eq_refl eq_refl eq_refl)).
Defined.

(** A firm and a faint stroke on the same pixel give the same result. *)
Lemma X6_faint_stroke_run :
  exists o1 o2 w',
    run binary_output app_with_model (editor (rgb 2 2 red) centre_layer)
        (Some (rgb 2 2 blue)) tt = (Ok o1, w') /\
    run binary_output app_with_model (editor (rgb 2 2 red) faint_layer)
        (Some (rgb 2 2 blue)) tt = (Ok o2, w') /\
    out_sam_mask o1 = out_sam_mask o2 /\
    out_result_image o1 = out_result_image o2 /\
    out_message o1 = out_message o2.
Proof.
  exact (X6_model_path_uses_points_only nearest_rows no_convert
           external_contours contour_moments unit unit
           (predict_const binary_output) app_with_model tt
           (editor (rgb 2 2 red) centre_layer)
           (editor (rgb 2 2 red) faint_layer)
           (rgb 2 2 red) (rgb 2 2 blue) centre_mask
           (mask_of_rows [[0; 0; 0]; [0; 7; 0]; [0; 0; 0]])
           (Float64.of_int 1, Float64.of_int 1) [] tt
           eq_refl eq_refl eq_refl eq_refl eq_refl eq_refl eq_refl eq_refl).
Defined.

(** A 3x1 original: the mask of the network's (1, 1, 3) output is a 1x3
    column, and the run fails. *)
Lemma X7_row_image_run :
  exists e,
    run row_output app_with_model (editor (rgb 3 1 red) centre_layer)
        (Some (rgb 2 2 blue)) tt
    = (Ok (Failure (error_message e)), tt).
Proof.
  destruct (X7_one_pixel_high_original nearest_rows no_convert
              external_contours contour_moments unit unit
              (predict_const row_output) app_with_model tt
              (editor (rgb 3 1 red) centre_layer) (rgb 3 1 red)
              (rgb 2 2 blue) centre_mask
              (Float64.of_int 1, Float64.of_int 1) [] row_output 3%nat tt tt
              eq_refl eq_refl eq_refl eq_refl eq_refl eq_refl eq_refl eq_refl)
    as [_ H].
  destruct (H ltac:(lia)) as [_ He]. exact He.
Defined.

Lemma X8_two_masks_run :
  run two_masks_output app_with_model (editor (rgb 5 2 red) centre_layer)
      (Some (rgb 2 2 blue)) tt
  = (Ok (Failure
           (error_message "Cannot handle this data type: (1, 1, 5), |u1")),
     tt).
Proof.
  exact (X8_several_masks nearest_rows no_convert external_contours
           contour_moments unit unit (predict_const two_masks_output)
           app_with_model tt (editor (rgb 5 2 red) centre_layer)
           (rgb 5 2 red) (rgb 2 2 blue) centre_mask
           (Float64.of_int 1, Float64.of_int 1) [] two_masks_output
           2%nat 2%nat 5%nat tt tt
           eq_refl eq_refl eq_refl eq_refl eq_refl eq_refl eq_refl
           ltac:(lia) ltac:(lia) ltac:(lia)).
Defined.

(** An RGBA replacement of another size under a blank mask. *)
Lemma X9_blank_mask_run :
  replace_region nearest_rows no_convert (rgb 2 2 red) (blue_rgba 3 1)
    (mask_of_rows [[0; 0]; [0; 0]]) = Ok (rgb 2 2 red).
Proof.
  destruct (replace_region nearest_rows no_convert (rgb 2 2 red)
              (blue_rgba 3 1) (mask_of_rows [[0; 0]; [0; 0]]))
    as [out|e] eqn:Hreg.
  - rewrite (X9_blank_mask_keeps_original nearest_rows no_convert
               (rgb 2 2 red) (blue_rgba 3 1) (mask_of_rows [[0; 0]; [0; 0]])
               out eq_refl blank_rows_blank Hreg).
    reflexivity.
  - discriminate Hreg.
Defined.

Lemma X10_nothing_selected_run :
  exists mask,
    run zero_output app_with_model (editor (rgb 2 2 red) centre_layer)
        (Some (rgb 1 1 blue)) tt
    = (Ok (Success centre_mask mask (rgb 2 2 red) model_message_ok), tt).
Proof.
  destruct (X10_empty_segmentation_returns_original nearest_rows no_convert
              external_contours contour_moments unit unit
              (predict_const zero_output) app_with_model tt
              (editor (rgb 2 2 red) centre_layer) (rgb 2 2 red)
              (rgb 1 1 blue) centre_mask
              (Float64.of_int 1, Float64.of_int 1) [] zero_output tt tt
              eq_refl eq_refl eq_refl eq_refl eq_refl eq_refl eq_refl
              (or_intror eq_refl))
    as (mask & _ & _ & _ & Hok).
  - apply Nat.leb_le; reflexivity.
  - apply Nat.leb_le; reflexivity.
  - simpl. repeat (apply Forall_cons; [right; reflexivity|]). apply Forall_nil.
  - exists mask. apply (Hok (rgb 2 2 blue)); reflexivity.
Defined.

Lemma X11_soft_mask_run :
  exists out,
    replace_region nearest_rows no_convert (rgb 2 2 red) (rgb 1 1 blue)
      soft_mask = Ok out /\
    0 <= PIL.getband out 0 1 0 <= 255 /\ 0 <= PIL.getband out 0 1 2 <= 255.
Proof.
  destruct (X11_composite_stays_between nearest_rows no_convert
              (rgb 2 2 red) (rgb 1 1 blue) soft_mask (rgb 2 2 blue)
              nearest_rows_sound eq_refl eq_refl eq_refl eq_refl eq_refl
              eq_refl eq_refl)
    as (out & Hreg & Hbetween).
  exists out. split; [exact Hreg|].
  split.
  - apply (Hbetween 0%nat 1%nat 0%nat); apply Nat.ltb_lt; reflexivity.
  - apply (Hbetween 0%nat 1%nat 2%nat); apply Nat.ltb_lt; reflexivity.
Defined.

Lemma X12_fallback_shape_run :
  exists o,
    run half_output app_without_model (editor (rgb 3 3 red) centre_layer)
        (Some (rgb 2 2 blue)) tt = (Ok o, tt) /\
    severity_of (out_message o) = SevWarning /\
    out_sam_mask o = out_drawn_mask o.
Proof.
  eexists. split; [reflexivity|]. split; [reflexivity|].
  match goal with
  | |- out_sam_mask ?o = _ =>
      apply (X12_outcome_shape nearest_rows no_convert external_contours
               contour_moments unit unit (predict_const half_output)
               app_without_model (editor (rgb 3 3 red) centre_layer)
               (Some (rgb 2 2 blue)) tt tt o eq_refl)
  end.
  reflexivity.
Defined.

Lemma X13_well_formed_run :
  exists out,
    replace_region nearest_rows no_convert (rgb 2 2 red) (rgb 1 1 blue)
      soft_mask = Ok out /\
    PIL.well_formed out = true.
Proof.
  eexists. split; [reflexivity|].
  eapply (proj1 (X13_result_well_formed nearest_rows no_convert
                   (rgb 2 2 red) (rgb 1 1 blue) soft_mask _
                   nearest_rows_sound no_convert_sound eq_refl eq_refl
                   eq_refl)).
Defined.

(** A null layer list: the subscript raises inside the [try] and the run
    is a failure with the description of the exception.  So it is for a
    dict without the key. *)
Lemma X15_null_layers_run :
  run half_output app_with_model
      {| background := Some (rgb 2 2 red); layers := None |}
      (Some (rgb 2 2 blue)) tt
  = (Ok (Failure
           "**❌ Error:** Segmentation error: 'NoneType' object is not subscriptable"),
     tt) /\
  run half_output app_with_model (PyDict (Some (Some (rgb 2 2 red))) None)
      (Some (rgb 2 2 blue)) tt
  = (Ok (Failure "**❌ Error:** Segmentation error: 'layers'"), tt).
Proof.
  split.
  - apply (proj1 (proj2 (X15_try_failures_are_caught nearest_rows no_convert
             external_contours contour_moments unit unit
             (predict_const half_output) app_with_model
             {| background := Some (rgb 2 2 red); layers := None |}
             (Some (rgb 2 2 red)) (Some (rgb 2 2 blue)) tt eq_refl))
             (rgb 2 2 red) (rgb 2 2 blue)
             "'NoneType' object is not subscriptable" tt
             eq_refl eq_refl eq_refl).
  - apply (proj2 (proj2 (X15_try_failures_are_caught nearest_rows no_convert
             external_contours contour_moments unit unit
             (predict_const half_output) app_with_model
             (PyDict (Some (Some (rgb 2 2 red))) None)
             (Some (rgb 2 2 red)) (Some (rgb 2 2 blue)) tt eq_refl))
             (rgb 2 2 red) (rgb 2 2 blue) "'layers'"
             eq_refl eq_refl eq_refl).
Defined.

Lemma X16_missing_replacement_run :
  run half_output app_with_model (editor (rgb 2 2 red) centre_layer) None tt
  = (Ok (Failure upload_message), tt).
Proof.
  apply (X16_missing_image nearest_rows no_convert external_contours
           contour_moments unit unit (predict_const half_output)
           app_with_model (editor (rgb 2 2 red) centre_layer)
           (Some (rgb 2 2 red)) None tt eq_refl).
  right; reflexivity.
Defined.

End Checks.
